(** * snapper-rollback: a shallow embedding of [snapper-rollback.py]

    The script rolls a btrfs root back to a snapper snapshot: it mounts the
    top-level volume, allocates the next snapshot number, writes a descriptor
    ([info.xml]) for the subvolume that is about to be set aside, renames the
    running root into the snapshots directory, snapshots the chosen source
    at the old root path and makes it the default subvolume.

    The development follows the script function by function.  Python values
    are modelled as the script has them (strings, [pathlib] paths, integers
    as [Z]); the operating system is an explicit state (path name space,
    mount table, default subvolume, log, system-call trace) threaded through
    a small state-and-exception monad; the answers of the environment
    (operator input, clock, shell status, injected call failures, directory
    listing order) are read from an immutable record. *)

From Stdlib Require Import ZArith List String Ascii Bool Lia.
From Stdlib Require Import DecimalString.
From stdpp Require Import base option list gmap strings fin_maps.

Local Open Scope string_scope.
Local Open Scope list_scope.
Local Open Scope Z_scope.

(** ** Python built-ins used by the script *)

Module Py.

(** [str(n)] for an integer. *)
Definition str (n : Z) : string := NilZero.string_of_int (Z.to_int n).

(** Characters that [int()] treats as blank: the ASCII range of
  [str.isspace]. *)
Definition is_space (c : ascii) : bool :=
let n := nat_of_ascii c in
((9 <=? n)%nat && (n <=? 13)%nat) || ((28 <=? n)%nat && (n <=? 32)%nat).

Definition digit_val (c : ascii) : option Z :=
let n := nat_of_ascii c in
if ((48 <=? n)%nat && (n <=? 57)%nat) then Some (Z.of_nat (n - 48)) else None.

Fixpoint lstrip (s : string) : string :=
match s with
| String c r => if is_space c then lstrip r else s
| EmptyString => s
end.

Definition strip (s : string) : string :=
String.rev (lstrip (String.rev (lstrip s))).

(** Digits of a decimal literal; a single underscore is allowed between two
  digits ([after_digit] tells whether the previous character was one). *)
Fixpoint digits (acc : Z) (after_digit : bool) (s : string) : option Z :=
match s with
| EmptyString => if after_digit then Some acc else None
| String c r =>
    match digit_val c with
    | Some d => digits (10 * acc + d) true r
    | None =>
        if (Ascii.eqb c "_" && after_digit)%bool then
          match r with
          | String c' _ =>
              match digit_val c' with
              | Some _ => digits acc false r
              | None => None
              end
          | EmptyString => None
          end
        else None
    end
end.

(** [int(s)] in base ten; [None] stands for [ValueError].  Names are byte
  strings here, so only ASCII digits and blanks are recognised. *)
Definition int (s : string) : option Z :=
match strip s with
| String "+" r => digits 0 false r
| String "-" r => Z.opp <$> digits 0 false r
| r => digits 0 false r
end.

(** [l[i]] with Python's negative indices; [None] stands for [IndexError]. *)
Definition getitem {A} (l : list A) (i : Z) : option A :=
let n := Z.of_nat (length l) in
let j := if i <? 0 then i + n else i in
if (j <? 0) || (n <=? j) then None else l !! Z.to_nat j.

End Py.

(** ** Log records *)

Inductive level := INFO | WARNING | ERROR | CRITICAL.

Definition logrec : Type := level * string.

(** ** The identifier allocator: the loop of [getNextSnapshotNumber] *)

Section Allocator.

(** The integer parser is a parameter of the loop, so that what is proved
    about the scan does not depend on which names [int()] accepts. *)
Variable int_of : string → option Z.

Record loop_state := LoopState {
  snap_id_offset : Z;
  snapshot_dir_length : Z;
  subvol_main_snapshot_number : string;
  emitted : list logrec
}.

Definition no_id_warning : logrec :=
  (WARNING, "No numbered snapshot ID exits, using 1 as the snapshot number").

(** One pass through the body of the [while]: the [try] with its bare
    [except], then the test on [snapshot_dir_length]. *)
Definition loop_body (snapshot_dir : list string) (s : loop_state) : loop_state :=
  let s1 :=
    match Py.getitem snapshot_dir (- snap_id_offset s) ≫= int_of with
    | Some n =>
        LoopState (snap_id_offset s) (snapshot_dir_length s)
                  (Py.str (n + 1)) (emitted s)
    | None =>
        LoopState (snap_id_offset s + 1) (snapshot_dir_length s - 1)
                  (subvol_main_snapshot_number s) (emitted s)
    end in
  if snapshot_dir_length s1 =? 0 then
    LoopState (snap_id_offset s1) (snapshot_dir_length s1) "1"
              (emitted s1 ++ [no_id_warning])
  else s1.

(** [while subvol_main_snapshot_number == "": body]; [None] when the fuel
    runs out before the condition turns false. *)
Fixpoint while_loop (fuel : nat) (snapshot_dir : list string)
    (s : loop_state) : option loop_state :=
  if String.eqb (subvol_main_snapshot_number s) "" then
    match fuel with
    | O => None
    | S fuel' => while_loop fuel' snapshot_dir (loop_body snapshot_dir s)
    end
  else Some s.

Definition loop_init (snapshot_dir : list string) : loop_state :=
  LoopState 1 (Z.of_nat (length snapshot_dir)) "" [].

(** The function without its [os.listdir] call: the listing is the
    argument, the result is the returned string and the records logged. *)
Definition next_number (fuel : nat) (snapshot_dir : list string)
    : option (string * list logrec) :=
  s ← while_loop fuel snapshot_dir (loop_init snapshot_dir);
  Some (subvol_main_snapshot_number s, emitted s).

End Allocator.

(** The state of the loop after [j] entries have been skipped. *)
Definition skipped (l : list string) (j : nat) : loop_state :=
  LoopState (Z.of_nat j + 1) (Z.of_nat (length l) - Z.of_nat j) "" [].

(** The greatest element of a list of integers. *)
Definition list_max (vs : list Z) : Z := fold_right Z.max (hd 0 vs) vs.

(** ** [pathlib] paths *)

Module Pathlib.

(** A pure POSIX path: whether it starts at the root, and its parts. *)
Record Path := MkPath { anchored : bool; parts : list string }.

Fixpoint split_go (cur s : string) : list string :=
  match s with
  | EmptyString => [cur]
  | String c r =>
      if Ascii.eqb c "/" then cur :: split_go "" r
      else split_go (cur +:+ String c "") r
  end.

(** The pieces between slashes. *)
Definition split (s : string) : list string := split_go "" s.

Definition kept (c : string) : bool :=
  negb (String.eqb c "") && negb (String.eqb c ".").

(** [Path(s)]: empty pieces and single dots are dropped. *)
Definition parse (s : string) : Path :=
  MkPath (match s with String "/" _ => true | _ => false end)
         (List.filter kept (split s)).

(** [p / q] for a path on the right. *)
Definition truediv (p q : Path) : Path :=
  if anchored q then q else MkPath (anchored p) (parts p ++ parts q).

(** [p / s] for a string on the right. *)
Definition truediv_str (p : Path) (s : string) : Path := truediv p (parse s).

Fixpoint join (ps : list string) : string :=
  match ps with
  | [] => ""
  | [c] => c
  | c :: r => c +:+ "/" +:+ join r
  end.

(** [str(p)], which is also what [os.fspath] hands to the system. *)
Definition str (p : Path) : string :=
  match anchored p, parts p with
  | true, ps => "/" +:+ join ps
  | false, [] => "."
  | false, ps => join ps
  end.

(** [p.name] and [p.parent]. *)
Definition name (p : Path) : string := List.last (parts p) "".
Definition parent (p : Path) : Path :=
  MkPath (anchored p) (removelast (parts p)).

End Pathlib.

(** No character of the string is a slash. *)
Fixpoint no_slash (s : string) : Prop :=
  match s with
  | EmptyString => True
  | String c r => c ≠ "/"%char ∧ no_slash r
  end.

Abbreviation Path := Pathlib.Path.
Infix "</>" := Pathlib.truediv_str (at level 40, left associativity).

(** ** Exceptions *)

Inductive errno :=
  ENOENT | EACCES | EPERM | EEXIST | ENOTDIR | EISDIR | ENOTEMPTY
| EINVAL | EIO | EROFS | EXDEV | ENOSPC.

(** The exception classes the script can meet.  [OSError] carries the error
    number, which decides its Python subclass; the [OSError] the script
    raises itself has none. *)
Inductive exn :=
| OSError (e : option errno)
| BtrfsUtilError (e : errno)
| ValueError
| IndexError
| AttributeError
| ExpatError
| NoSectionError
| NoOptionError
| KeyboardInterrupt
| EOFError
| SystemExit (code : Z).

Definition is_FileNotFoundError (e : exn) : bool :=
  match e with OSError (Some ENOENT) => true | _ => false end.

Definition is_PermissionError (e : exn) : bool :=
  match e with OSError (Some EACCES) | OSError (Some EPERM) => true | _ => false end.

Definition is_BtrfsUtilError (e : exn) : bool :=
  match e with BtrfsUtilError _ => true | _ => false end.

(** [btrfsutil.BtrfsUtilError] derives from [OSError]. *)
Definition is_OSError (e : exn) : bool :=
  match e with OSError _ | BtrfsUtilError _ => true | _ => false end.

Definition is_NoOptionError (e : exn) : bool :=
  match e with NoOptionError => true | _ => false end.

Definition is_KeyboardInterrupt (e : exn) : bool :=
  match e with KeyboardInterrupt => true | _ => false end.

Definition strerror (e : errno) : string :=
  match e with
  | ENOENT => "[Errno 2] No such file or directory"
  | EACCES => "[Errno 13] Permission denied"
  | EPERM => "[Errno 1] Operation not permitted"
  | EEXIST => "[Errno 17] File exists"
  | ENOTDIR => "[Errno 20] Not a directory"
  | EISDIR => "[Errno 21] Is a directory"
  | ENOTEMPTY => "[Errno 39] Directory not empty"
  | EINVAL => "[Errno 22] Invalid argument"
  | EIO => "[Errno 5] Input/output error"
  | EROFS => "[Errno 30] Read-only file system"
  | EXDEV => "[Errno 18] Invalid cross-device link"
  | ENOSPC => "[Errno 28] No space left on device"
  end.

(** [str(e)], up to the file name that the system appends. *)
Definition exn_str (e : exn) (msg : string) : string :=
  match e with
  | OSError (Some n) | BtrfsUtilError n => strerror n
  | _ => msg
  end.

(** ** The world the script runs in *)

(** What a file holds: a parsed XML document (the child elements of its
    root, each with the data of its first text child, if any) or bytes that
    are not well-formed XML. *)
Inductive content :=
| Xml (elems : list (string * option string))
| Opaque (bytes : string).

Record subvolume := Subvolume {
  subvol_id : N;
  snapshot_of : option N;
  read_only : bool
}.

Inductive node :=
| File (c : content)
| Dir
| Subvol (v : subvolume).

Definition dirlike (n : node) : bool :=
  match n with File _ => false | _ => true end.

(** Calls that leave the process, with their arguments as the system
    receives them (paths as strings). *)
Inductive syscall :=
| Isdir (p : string)
| Ismount (p : string)
| Makedirs (p : string)
| System (cmd : string)
| Rename (src dst : string)
| CreateSnapshot (src dst : string) (ro : bool)
| SetDefaultSubvolume (p : string)
| Listdir (p : string)
| ParseXml (p : string)
| WriteFile (p : string) (c : content)
| Input (prompt : string).

Inductive keyboard :=
| Line (s : string)
| CtrlC
| EndOfFile.

(** An INI file as [configparser] presents it: sections of options. *)
Definition config : Type := list (string * list (string * string)).

(** Keys of the name space are resolved absolute paths. *)
Abbreviation key := (list string).

Record state := State {
  fs : gmap key node;
  mounts : gset key;
  default_subvol : N;
  next_subvol_id : N;
  log : list logrec;
  trace : list syscall
}.

(** The answers of the environment, fixed for one run.
    - [stdin]: what the operator does at the prompt;
    - [utcnow]: [datetime.utcnow()] already formatted;
    - [localtime]: the text of a [date] element parsed as UTC, moved to the
      local zone and formatted with the zone name ([None]: [strptime]
      rejects the text);
    - [shell]: the status [os.system] returns for a command;
    - [fault]: a failure of a call that the name space does not explain
      (permissions, a read-only or full file system, I/O errors);
    - [readdir]: the order in which a directory yields its entries;
    - [config_of]: the configuration [configparser] reads from a file. *)
Record env := Env {
  cwd : key;
  stdin : keyboard;
  utcnow : string;
  localtime : string → option string;
  shell : string → Z;
  fault : syscall → option errno;
  readdir : key → list string;
  config_of : string → config
}.

(** ** State and exceptions *)

Inductive outcome (A : Type) :=
| Ok (a : A) (s : state)
| Raise (e : exn) (s : state)
| OutOfFuel.
Arguments Ok {A} a s.
Arguments Raise {A} e s.
Arguments OutOfFuel {A}.

Definition M (A : Type) : Type := env → state → outcome A.

Definition ret {A} (a : A) : M A := λ _ s, Ok a s.

Definition bind {A B} (c : M A) (k : A → M B) : M B :=
  λ en s,
    match c en s with
    | Ok a s' => k a en s'
    | Raise e s' => Raise e s'
    | OutOfFuel => OutOfFuel
    end.

Definition raise {A} (e : exn) : M A := λ _ s, Raise e s.

(** [try: c  except ...]: [h e] is the body of the first clause that
    matches [e], if any. *)
Definition try_except {A} (c : M A) (h : exn → option (M A)) : M A :=
  λ en s,
    match c en s with
    | Raise e s' =>
        match h e with
        | Some k => k en s'
        | None => Raise e s'
        end
    | o => o
    end.

Definition ask : M env := λ en s, Ok en s.
Definition get : M state := λ _ s, Ok s s.
Definition modify (f : state → state) : M unit := λ _ s, Ok tt (f s).

Global Instance M_ret : MRet M := @ret.
Global Instance M_bind : MBind M := λ A B k c, bind c k.

(** The status the process ends with: 0 when [main] returns, the code of
    [sys.exit], 130 for an interrupt that nobody catches and 1 for any
    other exception that reaches the top. *)
Definition exit_status {A} (o : outcome A) : option Z :=
  match o with
  | Ok _ _ => Some 0
  | Raise (SystemExit c) _ => Some c
  | Raise KeyboardInterrupt _ => Some 130
  | Raise _ _ => Some 1
  | OutOfFuel => None
  end.

Definition final_state {A} (o : outcome A) : option state :=
  match o with
  | Ok _ s | Raise _ s => Some s
  | OutOfFuel => None
  end.

Definition set_fs (f : gmap key node) (s : state) : state :=
  State f (mounts s) (default_subvol s) (next_subvol_id s) (log s) (trace s).

Definition add_log (r : logrec) (s : state) : state :=
  State (fs s) (mounts s) (default_subvol s) (next_subvol_id s)
        (log s ++ [r]) (trace s).

Definition add_trace (c : syscall) (s : state) : state :=
  State (fs s) (mounts s) (default_subvol s) (next_subvol_id s)
        (log s) (trace s ++ [c]).

(** [LOG.info], [LOG.warning], [LOG.error], [LOG.fatal]. *)
Definition LOG (l : level) (msg : string) : M unit := modify (add_log (l, msg)).

(** Every call is entered in the trace; then the environment may make it
    fail. *)
Definition enter (c : syscall) (mk : errno → exn) : M unit :=
  modify (add_trace c);;
  en ← ask;
  match fault en c with
  | Some e => raise (mk e)
  | None => ret tt
  end.

Definition os_error (e : errno) : exn := OSError (Some e).

(** ** Path resolution *)

(** The key a path string names: relative paths start at the working
    directory, [..] steps back lexically. *)
Definition resolve (en : env) (p : string) : key :=
  let q := Pathlib.parse p in
  fold_left
    (λ acc c, if String.eqb c ".." then removelast acc else acc ++ [c])
    (Pathlib.parts q)
    (if Pathlib.anchored q then [] else cwd en).

(** The root directory always exists. *)
Definition node_at (f : gmap key node) (k : key) : option node :=
  match k with
  | [] => Some Dir
  | _ => f !! k
  end.

(** Walking down from [pre] along [rest]: every directory on the way must
    exist and be a directory; the result is what the last name denotes. *)
Fixpoint walk_from (f : gmap key node) (pre rest : key) : errno + option node :=
  match rest with
  | [] => inr (node_at f pre)
  | c :: rest' =>
      match node_at f pre with
      | None => inl ENOENT
      | Some (File _) => inl ENOTDIR
      | Some _ => walk_from f (pre ++ [c]) rest'
      end
  end.

Definition walk (f : gmap key node) (k : key) : errno + option node :=
  walk_from f [] k.

(** [p] is a proper ancestor of [k]. *)
Definition above (p k : key) : Prop := ∃ c r, k = p ++ c :: r.

Fixpoint strip_prefix (a k : key) : option key :=
  match a, k with
  | [], _ => Some k
  | x :: a', y :: k' => if String.eqb x y then strip_prefix a' k' else None
  | _ :: _, [] => None
  end.

Definition is_prefix (a k : key) : bool :=
  match strip_prefix a k with Some _ => true | None => false end.

Definition comparable (a b : key) : bool := is_prefix a b || is_prefix b a.

(** Moving the tree at [a] to [b]: keys below [a] go below [b] (and the
    other way round, which keeps the map on keys one-to-one). *)
Definition reroot (a b k : key) : key :=
  if comparable a b then k
  else
    match strip_prefix a k with
    | Some r => b ++ r
    | None =>
        match strip_prefix b k with
        | Some r => a ++ r
        | None => k
        end
    end.

Definition has_children (f : gmap key node) (k : key) : bool :=
  existsb (λ kv, is_prefix k kv.1 && negb (length kv.1 =? length k)%nat)
          (map_to_list f).

(** Whether a subvolume boundary lies strictly between [a] and [a ++ r]. *)
Definition crosses_subvol (f : gmap key node) (a r : key) : bool :=
  existsb
    (λ i, match f !! (a ++ take i r) with Some (Subvol _) => true | _ => false end)
    (seq 1 (length r - 1)).

(** What a snapshot of the subvolume at [a] shows at [b]: its files and
    directories; nested subvolumes appear as empty directories. *)
Definition snapshot_entries (f : gmap key node) (a b : key) : gmap key node :=
  list_to_map
    (omap (λ kv : key * node,
             match strip_prefix a kv.1 with
             | Some (c :: r) =>
                 if crosses_subvol f a (c :: r) then None
                 else Some (b ++ c :: r,
                            match kv.2 with Subvol _ => Dir | n => n end)
             | _ => None
             end)
          (map_to_list f)).

(** The subvolume a path lies in: the nearest subvolume at or above it, the
    top level (id 5) when there is none. *)
Definition containing_subvol (f : gmap key node) (k : key) : N :=
  match
    omap (λ i, match f !! take i k with
               | Some (Subvol v) => Some (subvol_id v)
               | _ => None
               end)
         (rev (seq 1 (length k)))
  with
  | i :: _ => i
  | [] => 5%N
  end.

(** [os.makedirs]: create the missing directories from the top down; the
    last one must not exist.  On failure the directories made so far stay. *)
Fixpoint makedirs_from (f : gmap key node) (pre rest : key)
    : errno * gmap key node + gmap key node :=
  match rest with
  | [] => inr f
  | c :: rest' =>
      match node_at f pre with
      | None => inl (ENOENT, f)
      | Some (File _) => inl (ENOTDIR, f)
      | Some _ =>
          match f !! (pre ++ [c]), rest' with
          | None, _ => makedirs_from (<[pre ++ [c] := Dir]> f) (pre ++ [c]) rest'
          | Some _, [] => inl (EEXIST, f)
          | Some _, _ => makedirs_from f (pre ++ [c]) rest'
          end
      end
  end.

(** ** System calls *)

(** [os.path.isdir]: never raises. *)
Definition os_path_isdir (p : string) : M bool :=
  modify (add_trace (Isdir p));;
  en ← ask; s ← get;
  mret (match walk (fs s) (resolve en p) with
        | inr (Some n) => dirlike n
        | _ => false
        end).

(** [os.path.ismount]: never raises. *)
Definition os_path_ismount (p : string) : M bool :=
  modify (add_trace (Ismount p));;
  en ← ask; s ← get;
  mret (match walk (fs s) (resolve en p) with
        | inr (Some n) => dirlike n && bool_decide (resolve en p ∈ mounts s)
        | _ => false
        end).

Definition os_makedirs (p : string) : M unit :=
  enter (Makedirs p) os_error;;
  en ← ask; s ← get;
  match resolve en p with
  | [] => raise (os_error EEXIST)
  | k =>
      match makedirs_from (fs s) [] k with
      | inl (e, f) => modify (set_fs f);; raise (os_error e)
      | inr f => modify (set_fs f)
      end
  end.

(** [os.system] for the mount command: the status comes from the
    environment; status 0 means [target] is now a mount point.  The name
    space [fs] is the one the process sees with the volume mounted. *)
Definition os_system_mount (cmd : string) (target : string) : M Z :=
  modify (add_trace (System cmd));;
  en ← ask;
  (if shell en cmd =? 0 then
     modify (λ s, State (fs s) ({[resolve en target]} ∪ mounts s)
                        (default_subvol s) (next_subvol_id s) (log s) (trace s))
   else mret tt);;
  mret (shell en cmd).

(** The name space after the tree at [ks] has been moved to [kd]. *)
Definition moved (ks kd : key) (f : gmap key node) : gmap key node :=
  kmap (reroot ks kd) (delete kd f).

(** [os.rename]. *)
Definition os_rename (src dst : string) : M unit :=
  enter (Rename src dst) os_error;;
  en ← ask; s ← get;
  let ks := resolve en src in
  let kd := resolve en dst in
  match walk (fs s) ks, walk (fs s) kd with
  | inl e, _ => raise (os_error e)
  | inr None, _ => raise (os_error ENOENT)
  | inr (Some _), inl e => raise (os_error e)
  | inr (Some n), inr d =>
      if bool_decide (ks = kd) then mret tt
      else if is_prefix ks kd then raise (os_error EINVAL)
      else if is_prefix kd ks then raise (os_error ENOTEMPTY)
      else
        match n, d with
        | _, None => modify (set_fs (moved ks kd (fs s)))
        | File _, Some (File _) => modify (set_fs (moved ks kd (fs s)))
        | File _, Some _ => raise (os_error EISDIR)
        | _, Some (File _) => raise (os_error ENOTDIR)
        | _, Some (Subvol _) => raise (os_error ENOTEMPTY)
        | _, Some Dir =>
            if has_children (fs s) kd then raise (os_error ENOTEMPTY)
            else modify (set_fs (moved ks kd (fs s)))
        end
  end.

(** [btrfsutil.create_snapshot(source, path)]; snapshots are writable
    unless asked otherwise. *)
Definition btrfsutil_create_snapshot (src dst : string) : M unit :=
  enter (CreateSnapshot src dst false) BtrfsUtilError;;
  en ← ask; s ← get;
  let ks := resolve en src in
  let kd := resolve en dst in
  match walk (fs s) ks, walk (fs s) kd with
  | inl e, _ => raise (BtrfsUtilError e)
  | inr None, _ => raise (BtrfsUtilError ENOENT)
  | inr (Some (Subvol v)), inr None =>
      match kd with
      | [] => raise (BtrfsUtilError EEXIST)
      | _ =>
          modify (λ s,
            State (<[kd := Subvol (Subvolume (next_subvol_id s)
                                             (Some (subvol_id v)) false)]>
                     (fs s ∪ snapshot_entries (fs s) ks kd))
                  (mounts s) (default_subvol s) (N.succ (next_subvol_id s))
                  (log s) (trace s))
      end
  | inr (Some (Subvol _)), inr (Some _) => raise (BtrfsUtilError EEXIST)
  | inr (Some (Subvol _)), inl e => raise (BtrfsUtilError e)
  | inr (Some _), _ => raise (BtrfsUtilError EINVAL)
  end.

(** [btrfsutil.set_default_subvolume(path)]: the subvolume containing
    [path] becomes the default. *)
Definition btrfsutil_set_default_subvolume (p : string) : M unit :=
  enter (SetDefaultSubvolume p) BtrfsUtilError;;
  en ← ask; s ← get;
  match walk (fs s) (resolve en p) with
  | inl e => raise (BtrfsUtilError e)
  | inr None => raise (BtrfsUtilError ENOENT)
  | inr (Some _) =>
      modify (λ s,
        State (fs s) (mounts s) (containing_subvol (fs s) (resolve en p))
              (next_subvol_id s) (log s) (trace s))
  end.

(** [os.listdir]. *)
Definition os_listdir (p : string) : M (list string) :=
  enter (Listdir p) os_error;;
  en ← ask; s ← get;
  match walk (fs s) (resolve en p) with
  | inl e => raise (os_error e)
  | inr None => raise (os_error ENOENT)
  | inr (Some (File _)) => raise (os_error ENOTDIR)
  | inr (Some _) => mret (readdir en (resolve en p))
  end.

(** [minidom.parse]: open and parse a file. *)
Definition minidom_parse (p : string) : M (list (string * option string)) :=
  enter (ParseXml p) os_error;;
  en ← ask; s ← get;
  match walk (fs s) (resolve en p) with
  | inl e => raise (os_error e)
  | inr None => raise (os_error ENOENT)
  | inr (Some (File (Xml elems))) => mret elems
  | inr (Some (File (Opaque _))) => raise ExpatError
  | inr (Some _) => raise (os_error EISDIR)
  end.

(** [with open(p, "w") as file: file.write(...)]. *)
Definition write_file (p : string) (c : content) : M unit :=
  enter (WriteFile p c) os_error;;
  en ← ask; s ← get;
  match walk (fs s) (resolve en p) with
  | inl e => raise (os_error e)
  | inr (Some (File _)) | inr None =>
      modify (set_fs (<[resolve en p := File c]> (fs s)))
  | inr (Some _) => raise (os_error EISDIR)
  end.

(** [input(prompt)]. *)
Definition input (prompt : string) : M string :=
  modify (add_trace (Input prompt));;
  en ← ask;
  match stdin en with
  | Line s => mret s
  | CtrlC => raise KeyboardInterrupt
  | EndOfFile => raise EOFError
  end.

(** [sys.exit(code)] and the [exit] of the [site] module. *)
Definition sys_exit {A} (code : Z) : M A := raise (SystemExit code).

(** [config.get(section, option)]. *)
Definition config_lookup (c : config) (section option : string) : exn + string :=
  match List.find (λ so, String.eqb so.1 section) c with
  | None => inl NoSectionError
  | Some (_, opts) =>
      match List.find (λ ov, String.eqb ov.1 option) opts with
      | None => inl NoOptionError
      | Some (_, v) => inr v
      end
  end.

Definition config_get (c : config) (section option : string) : M string :=
  match config_lookup c section option with
  | inl e => raise e
  | inr v => mret v
  end.

(** ** The script *)

(** The result of [parse_args]. *)
Record args := Args {
  snap_id : string;
  dry_run : bool;
  config_file : string
}.

Definition description_of (src_id snapshot_date : string) : string :=
  "snapper-rollback: Rollback to snapshot #" +:+ src_id
  +:+ " (snapshot creation date: " +:+ snapshot_date +:+ ")".

Definition descriptor (num date description : string) : content :=
  Xml [("type", Some "single"); ("num", Some num); ("date", Some date);
       ("description", Some description); ("cleanup", Some "number")].

(** The first half of [generateXML]: the creation date of the source
    snapshot, read from its descriptor and rendered in local time. *)
Definition source_snapshot_date (src_id : string) : M string :=
  en ← ask;
  snapshot_info ← minidom_parse ("/.snapshots/" +:+ src_id +:+ "/info.xml");
  snapshot_date_element ←
    match List.find (λ el, String.eqb el.1 "date") snapshot_info with
    | Some el => mret el
    | None => raise IndexError
    end;
  data ←
    match snapshot_date_element.2 with
    | Some d => mret d
    | None => raise AttributeError
    end;
  match localtime en data with
  | Some d => mret d
  | None => raise ValueError
  end.

Definition generateXML (file_name : Path) (num src_id : string)
    (dry_run : bool) : M unit :=
  en ← ask;
  let date := utcnow en in
  snapshot_date ← source_snapshot_date src_id;
  let description := description_of src_id snapshot_date in
  let info := descriptor num date description in
  if dry_run then
    LOG INFO ("Writing info.xml to " +:+ Pathlib.str file_name)
  else
    write_file (Pathlib.str file_name) info.

Definition read_config (configfile : string) : M config :=
  en ← ask; mret (config_of en configfile).

Definition ensure_dir (dirpath : Path) (dry_run : bool) : M unit :=
  d ← os_path_isdir (Pathlib.str dirpath);
  if negb d then
    try_except
      (if dry_run then
         LOG INFO ("mkdir -p '" +:+ Pathlib.str dirpath +:+ "'")
       else
         os_makedirs (Pathlib.str dirpath))
      (λ e,
         if is_OSError e then
           Some (LOG CRITICAL ("error creating dir '" +:+ Pathlib.str dirpath
                               +:+ "': " +:+ exn_str e "");;
                 raise e)
         else None)
  else mret tt.

Definition mount_subvol_id5 (target : Path) (source : option string)
    (dry_run : bool) : M unit :=
  ensure_dir target dry_run;;
  m ← os_path_ismount (Pathlib.str target);
  if negb m then
    let shellcmd :=
      "mount -o subvolid=5 " +:+ default "" source +:+ " "
      +:+ Pathlib.str target in
    ret ← (if dry_run then LOG INFO shellcmd;; mret 0
           else os_system_mount shellcmd (Pathlib.str target));
    if negb (ret =? 0) then
      raise (OSError None)
    else mret tt
  else mret tt.

(** The body of the [try] of [rollback]. *)
Definition reposition (subvol_main subvol_main_newname subvol_rollback_src : Path)
    (dry_run : bool) : M unit :=
  (if dry_run then
     LOG INFO ("mv " +:+ Pathlib.str subvol_main +:+ " "
               +:+ Pathlib.str subvol_main_newname);;
     LOG INFO ("btrfs subvolume snapshot "
               +:+ Pathlib.str subvol_rollback_src +:+ " "
               +:+ Pathlib.str subvol_main);;
     LOG INFO ("btrfs subvolume set-default " +:+ Pathlib.str subvol_main)
   else
     os_rename (Pathlib.str subvol_main) (Pathlib.str subvol_main_newname);;
     btrfsutil_create_snapshot (Pathlib.str subvol_rollback_src)
                               (Pathlib.str subvol_main);;
     btrfsutil_set_default_subvolume (Pathlib.str subvol_main));;
  LOG INFO ((if dry_run then "[DRY-RUN MODE] " else "False")
            +:+ "Rollback to " +:+ Pathlib.str subvol_rollback_src
            +:+ " complete. Reboot to finish").

(** The body of [except btrfsutil.BtrfsUtilError]. *)
Definition restore_old_root (subvol_main subvol_main_newname : Path)
    (dry_run : bool) : M unit :=
  LOG ERROR "{e}";;
  d ← os_path_isdir (Pathlib.str subvol_main);
  if negb d then
    LOG INFO ("Moving " +:+ Pathlib.str subvol_main_newname
              +:+ " back to " +:+ Pathlib.str subvol_main);;
    if dry_run then
      LOG WARNING ("mv " +:+ Pathlib.str subvol_main_newname
                   +:+ " " +:+ Pathlib.str subvol_main)
    else
      os_rename (Pathlib.str subvol_main_newname) (Pathlib.str subvol_main)
  else mret tt.

Definition rollback (subvol_main subvol_main_newname subvol_rollback_src : Path)
    (dev : option string) (dry_run : bool) : M unit :=
  try_except
    (reposition subvol_main subvol_main_newname subvol_rollback_src dry_run)
    (λ e,
       if is_FileNotFoundError e then
         Some (LOG CRITICAL
                 ("Missing " +:+ Pathlib.str subvol_main +:+ ": Is "
                  +:+ default "None" dev
                  +:+ " mounted with the option subvolid=5?"))
       else if is_BtrfsUtilError e then
         Some (restore_old_root subvol_main subvol_main_newname dry_run)
       else None).

Definition getNextSnapshotNumber (fuel : nat) : M string :=
  snapshot_dir ← os_listdir "/.snapshots";
  match next_number Py.int fuel snapshot_dir with
  | Some (subvol_main_snapshot_number, records) =>
      modify (λ s, State (fs s) (mounts s) (default_subvol s)
                         (next_subvol_id s) (log s ++ records) (trace s));;
      mret subvol_main_snapshot_number
  | None => λ _ _, OutOfFuel
  end.

Definition createNextSubvolumeNumber (mountpoint : Path) (config : config)
    (dest : Path) (dry_run : bool) : M unit :=
  subvol_snapshots ← config_get config "root" "subvol_snapshots";
  let target := Pathlib.truediv (mountpoint </> subvol_snapshots) dest in
  ensure_dir target dry_run.

(** The statements inside the second [try] of [main]. *)
Definition main_body (fuel : nat) (args : args) (config : config)
    (mountpoint subvol_main subvol_rollback_src : Path)
    (dev : option string) : M unit :=
  mount_subvol_id5 mountpoint dev (dry_run args);;
  subvol_main_snapshot_number ← getNextSnapshotNumber fuel;
  subvol_snapshots ← config_get config "root" "subvol_snapshots";
  let subvol_rollback_dir :=
    mountpoint </> subvol_snapshots </> subvol_main_snapshot_number in
  let subvol_main_dst := subvol_rollback_dir </> "snapshot" in
  createNextSubvolumeNumber mountpoint config subvol_rollback_dir (dry_run args);;
  generateXML (subvol_rollback_dir </> "info.xml") subvol_main_snapshot_number
              (snap_id args) (dry_run args);;
  rollback subvol_main subvol_main_dst subvol_rollback_src dev (dry_run args).

Definition confirm_typed_value : string := "CONFIRM".

Definition confirm_prompt : string :=
  "Are you SURE you want to rollback? Type '" +:+ confirm_typed_value
  +:+ "' to continue: ".

(** The first [try] of [main]: the confirmation gate. *)
Definition confirm : M unit :=
  try_except
    (confirmation ← input confirm_prompt;
     if negb (String.eqb confirmation confirm_typed_value) then
       LOG CRITICAL "Bad confirmation, exiting...";;
       sys_exit 0
     else mret tt)
    (λ e, if is_KeyboardInterrupt e then Some (sys_exit 1) else None).

(** The clause [except PermissionError] of [main]. *)
Definition permission_denied (e : exn) : option (M unit) :=
  if is_PermissionError e then
    Some (LOG CRITICAL ("Permission denied: " +:+ exn_str e "");;
          sys_exit 1)
  else None.

Definition main (fuel : nat) (args : args) : M unit :=
  config ← read_config (config_file args);
  mountpoint_s ← config_get config "root" "mountpoint";
  let mountpoint := Pathlib.parse mountpoint_s in
  subvol_main_s ← config_get config "root" "subvol_main";
  let subvol_main := mountpoint </> subvol_main_s in
  subvol_snapshots ← config_get config "root" "subvol_snapshots";
  let subvol_rollback_src :=
    mountpoint </> subvol_snapshots </> snap_id args </> "snapshot" in
  dev ← try_except
          (d ← config_get config "root" "dev"; mret (Some d))
          (λ e, if is_NoOptionError e then Some (mret None) else None);
  confirm;;
  try_except
    (main_body fuel args config mountpoint subvol_main subvol_rollback_src dev)
    permission_denied.


(** ** Vocabulary of the statements *)

(** Calls that only look at the world. *)
Definition readonly_call (c : syscall) : Prop :=
  match c with
  | Isdir _ | Ismount _ | Listdir _ | ParseXml _ | Input _ => True
  | _ => False
  end.

(** The three calls of the repositioning sequence. *)
Definition repositioning_call (c : syscall) : Prop :=
  match c with
  | Rename _ _ | CreateSnapshot _ _ _ | SetDefaultSubvolume _ => True
  | _ => False
  end.

Definition subvol_at (f : gmap key node) (k : key) : option subvolume :=
  match f !! k with
  | Some (Subvol v) => Some v
  | _ => None
  end.

(** From [s] to [s'] nothing in the file system has changed, and only
    read-only calls were made. *)
Record quiet (s s' : state) : Prop := Quiet {
  quiet_fs : fs s' = fs s;
  quiet_mounts : mounts s' = mounts s;
  quiet_default : default_subvol s' = default_subvol s;
  quiet_next : next_subvol_id s' = next_subvol_id s;
  quiet_trace : ∃ t, trace s' = trace s ++ t ∧ Forall readonly_call t
}.

(** From [s] to [s'] no subvolume has been touched: the same subvolumes
    sit at the same paths, the default subvolume is the same, and none of
    the repositioning calls was made. *)
Record subvolumes_kept (s s' : state) : Prop := SubvolumesKept {
  kept_subvols : ∀ k, subvol_at (fs s') k = subvol_at (fs s) k;
  kept_default : default_subvol s' = default_subvol s;
  kept_next : next_subvol_id s' = next_subvol_id s;
  kept_trace : ∃ t, trace s' = trace s ++ t
                    ∧ Forall (λ c, ¬ repositioning_call c) t
}.

(** From [s] to [s'] the calls made all satisfy [P]. *)
Definition traced (P : syscall → Prop) (s s' : state) : Prop :=
  ∃ t, trace s' = trace s ++ t ∧ Forall P t.

Definition not_write (c : syscall) : Prop := ∀ p d, c ≠ WriteFile p d.

(** What the allocator can return: the literal 1 or a printed integer. *)
Definition allocated (num : string) : Prop := num = "1" ∨ ∃ n, num = Py.str n.

(** A call that writes a file writes a descriptor of the expected shape:
    the file is [info.xml] in a directory [dir], the [num] element is the
    name of [dir], the type is single, the cleanup policy is number, the
    date is the clock reading, and the description names the source
    snapshot and carries the local-time rendering of the text of the first
    [date] element of the source descriptor. *)
Definition descriptor_write (a : args) (en : env) (c : syscall) : Prop :=
  ∀ p d, c = WriteFile p d →
    ∃ dir num text local elems s0 s0',
      p = Pathlib.str (dir </> "info.xml")
      ∧ Pathlib.parent (dir </> "info.xml") = dir
      ∧ Pathlib.name dir = num
      ∧ minidom_parse ("/.snapshots/" +:+ snap_id a +:+ "/info.xml") en s0
        = Ok elems s0'
      ∧ List.find (λ el, String.eqb el.1 "date") elems = Some ("date", Some text)
      ∧ localtime en text = Some local
      ∧ d = Xml [("type", Some "single"); ("num", Some num);
                 ("date", Some (utcnow en));
                 ("description",
                  Some ("snapper-rollback: Rollback to snapshot #" +:+ snap_id a
                        +:+ " (snapshot creation date: " +:+ local +:+ ")"));
                 ("cleanup", Some "number")].

(** [c] relates every state it starts in to the state it ends in. *)
Definition preserves {A} (R : state → state → Prop) (c : M A) : Prop :=
  ∀ en s s', final_state (c en s) = Some s' → R s s'.

(** One of the steps before the repositioning raises [e] in state [s']:
    the mount precondition, the allocator, the creation of the snapshot
    directory, or the reading and writing of the descriptor. *)
Inductive preparation_fails (fuel : nat) (a : args) (cfg : config)
    (mountpoint : Path) (dev : option string) (en : env) (s : state)
    (e : exn) (s' : state) : Prop :=
| mount_fails :
    mount_subvol_id5 mountpoint dev (dry_run a) en s = Raise e s' →
    preparation_fails fuel a cfg mountpoint dev en s e s'
| allocator_fails s1 :
    mount_subvol_id5 mountpoint dev (dry_run a) en s = Ok tt s1 →
    getNextSnapshotNumber fuel en s1 = Raise e s' →
    preparation_fails fuel a cfg mountpoint dev en s e s'
| directory_fails s1 num s2 snaps :
    mount_subvol_id5 mountpoint dev (dry_run a) en s = Ok tt s1 →
    getNextSnapshotNumber fuel en s1 = Ok num s2 →
    config_lookup cfg "root" "subvol_snapshots" = inr snaps →
    createNextSubvolumeNumber mountpoint cfg (mountpoint </> snaps </> num)
                              (dry_run a) en s2 = Raise e s' →
    preparation_fails fuel a cfg mountpoint dev en s e s'
| descriptor_fails s1 num s2 snaps s3 :
    mount_subvol_id5 mountpoint dev (dry_run a) en s = Ok tt s1 →
    getNextSnapshotNumber fuel en s1 = Ok num s2 →
    config_lookup cfg "root" "subvol_snapshots" = inr snaps →
    createNextSubvolumeNumber mountpoint cfg (mountpoint </> snaps </> num)
                              (dry_run a) en s2 = Ok tt s3 →
    generateXML (mountpoint </> snaps </> num </> "info.xml") num (snap_id a)
                (dry_run a) en s3 = Raise e s' →
    preparation_fails fuel a cfg mountpoint dev en s e s'.

(** All the steps before the repositioning succeed, and [rollback] is
    called in state [s'] with the rollback target [dst]. *)
Definition prepared (fuel : nat) (a : args) (cfg : config)
    (mountpoint : Path) (dev : option string) (en : env) (s : state)
    (dst : Path) (s' : state) : Prop :=
  ∃ s1 num s2 snaps s3,
    mount_subvol_id5 mountpoint dev (dry_run a) en s = Ok tt s1
    ∧ getNextSnapshotNumber fuel en s1 = Ok num s2
    ∧ config_lookup cfg "root" "subvol_snapshots" = inr snaps
    ∧ createNextSubvolumeNumber mountpoint cfg (mountpoint </> snaps </> num)
                                (dry_run a) en s2 = Ok tt s3
    ∧ generateXML (mountpoint </> snaps </> num </> "info.xml") num (snap_id a)
                  (dry_run a) en s3 = Ok tt s'
    ∧ dst = mountpoint </> snaps </> num </> "snapshot".

(** The configuration is complete: these are the settings [main] reads
    from it. *)
Record configured (a : args) (en : env) (cfg : config)
    (mountpoint subvol_main subvol_rollback_src : Path)
    (dev : option string) : Prop := Configured {
  cfg_file : config_of en (config_file a) = cfg;
  cfg_mountpoint :
    ∃ v, config_lookup cfg "root" "mountpoint" = inr v
         ∧ mountpoint = Pathlib.parse v;
  cfg_main :
    ∃ v, config_lookup cfg "root" "subvol_main" = inr v
         ∧ subvol_main = mountpoint </> v;
  cfg_snapshots :
    ∃ v, config_lookup cfg "root" "subvol_snapshots" = inr v
         ∧ subvol_rollback_src = mountpoint </> v </> snap_id a </> "snapshot";
  cfg_dev :
    (config_lookup cfg "root" "dev" = inl NoOptionError ∧ dev = None)
    ∨ (∃ v, config_lookup cfg "root" "dev" = inr v ∧ dev = Some v)
}.

(** The configuration is complete and the operator typed the expected
    word: [main] gets past the confirmation gate with these settings. *)
Definition gate_passed (a : args) (en : env) (cfg : config)
    (mountpoint subvol_main subvol_rollback_src : Path)
    (dev : option string) : Prop :=
  configured a en cfg mountpoint subvol_main subvol_rollback_src dev
  ∧ stdin en = Line confirm_typed_value.

(** ** A concrete system *)

Module Scenario.

(** The layout of the Arch wiki: the top-level volume holds [@] and
    [@snapshots]; the latter is also mounted at [/.snapshots]. *)
Definition info_5 : content :=
  Xml [("type", Some "single"); ("num", Some "5");
       ("date", Some "2024-01-02 03:04:05");
       ("description", Some "before upgrade"); ("cleanup", Some "number")].

Definition root_subvol : node := Subvol (Subvolume 256 None false).
Definition snap_5 : node := Subvol (Subvolume 260 (Some 256%N) true).

Definition fs0 : gmap key node :=
  list_to_map [
    (["btrfsroot"], Dir);
    (["btrfsroot"; "@"], root_subvol);
    (["btrfsroot"; "@snapshots"], Subvol (Subvolume 257 None false));
    (["btrfsroot"; "@snapshots"; "5"], Dir);
    (["btrfsroot"; "@snapshots"; "5"; "snapshot"], snap_5);
    (["btrfsroot"; "@snapshots"; "5"; "info.xml"], File info_5);
    ([".snapshots"], Subvol (Subvolume 257 None false));
    ([".snapshots"; "5"], Dir);
    ([".snapshots"; "5"; "snapshot"], snap_5);
    ([".snapshots"; "5"; "info.xml"], File info_5)
  ].

Definition st0 : state := State fs0 ∅ 256 300 [] [].

Definition cfg0 : config :=
  [("root", [("mountpoint", "/btrfsroot"); ("subvol_main", "@");
             ("subvol_snapshots", "@snapshots"); ("dev", "/dev/sda1")])].

(** An environment: what the operator types, which calls fail, the
    status of the mount command, and the listing of [/.snapshots]. *)
Definition world (kb : keyboard) (flt : syscall → option errno)
    (mount_status : Z) (listing : list string) : env :=
  Env [] kb "2024-06-01 12:00:00" (λ d, Some (d +:+ " CET"))
      (λ _, mount_status) flt (λ _, listing) (λ _, cfg0).

Definition no_fault : syscall → option errno := λ _, None.

Definition calm : env := world (Line "CONFIRM") no_fault 0 ["3"; "5"; "7"].

Definition real_run : args := Args "5" false "/etc/snapper-rollback.conf".
Definition rehearsal : args := Args "5" true "/etc/snapper-rollback.conf".

Definition mountpoint : Path := Pathlib.parse "/btrfsroot".
Definition subvol_main : Path := mountpoint </> "@".
Definition subvol_rollback_src : Path :=
  mountpoint </> "@snapshots" </> "5" </> "snapshot".
Definition subvol_main_dst : Path :=
  mountpoint </> "@snapshots" </> "8" </> "snapshot".

(** The snapshot call fails. *)
Definition snapshot_fails : syscall → option errno :=
  λ c, match c with CreateSnapshot _ _ _ => Some ENOSPC | _ => None end.

(** The snapshot call fails and the file system has turned read-only by
    the time the old root is to be moved back. *)
Definition turned_read_only : syscall → option errno :=
  λ c, match c with
       | CreateSnapshot _ _ _ => Some EIO
       | Rename "/btrfsroot/@snapshots/8/snapshot" _ => Some EROFS
       | _ => None
       end.

(** The state in which [rollback] is called in a real run: the
    directory of snapshot 8 exists. *)
Definition st_ready : state :=
  State (<[["btrfsroot"; "@snapshots"; "8"] := Dir]> fs0)
        {[ ["btrfsroot"] ]} 256 300 [] [].

(** The same system with the volume mounted without [subvolid=5]: the
    mount point shows the content of [@], and there is no [@] in it. *)
Definition st_wrong_mount : state :=
  State (list_to_map [
           (["btrfsroot"], Dir);
           ([".snapshots"], Subvol (Subvolume 257 None false));
           ([".snapshots"; "5"], Dir);
           ([".snapshots"; "5"; "info.xml"], File info_5)])
        {[ ["btrfsroot"] ]} 256 300 [] [].

(** The same system before [@snapshots] has been mounted at
    [/.snapshots]. *)
Definition st_no_dot_snapshots : state :=
  State (list_to_map [
           (["btrfsroot"], Dir);
           (["btrfsroot"; "@"], root_subvol);
           (["btrfsroot"; "@snapshots"], Subvol (Subvolume 257 None false));
           (["btrfsroot"; "@snapshots"; "5"], Dir);
           (["btrfsroot"; "@snapshots"; "5"; "snapshot"], snap_5);
           (["btrfsroot"; "@snapshots"; "5"; "info.xml"], File info_5)])
        ∅ 256 300 [] [].

(** The mount command fails. *)
Definition mount_refused : env :=
  world (Line "CONFIRM") no_fault 32 ["3"; "5"; "7"].

End Scenario.
(** * Properties *)

(** ** Python built-ins *)

Lemma getitem_from_end {A} (l : list A) (k : nat) :
  (1 ≤ k ≤ length l)%nat →
  Py.getitem l (- Z.of_nat k) = l !! (length l - k)%nat.
Proof.
  intros Hk. unfold Py.getitem.
  destruct (Z.ltb_spec (- Z.of_nat k) 0) as [_|]; [|lia].
  destruct (Z.ltb_spec (- Z.of_nat k + Z.of_nat (length l)) 0); [lia|].
  destruct (Z.leb_spec (Z.of_nat (length l))
                       (- Z.of_nat k + Z.of_nat (length l))); [lia|].
  simpl. f_equal. lia.
Qed.

Lemma getitem_nil {A} (i : Z) : Py.getitem (@nil A) i = None.
Proof.
  unfold Py.getitem.
  destruct ((_ <? 0) || _); [reflexivity|]. apply lookup_nil.
Qed.

Lemma string_of_uint_head (d : Decimal.uint) :
  d ≠ Decimal.Nil → NilEmpty.string_of_uint d ≠ "".
Proof. destruct d; simpl; congruence. Qed.

Lemma string_of_uint_nonempty (d : Decimal.uint) :
  NilZero.string_of_uint d ≠ "".
Proof. destruct d; simpl; congruence. Qed.

Lemma str_nonempty (n : Z) : Py.str n ≠ "".
Proof.
  unfold Py.str, NilZero.string_of_int.
  destruct (Z.to_int n); [apply string_of_uint_nonempty|discriminate].
Qed.

Lemma str_eqb_empty (n : Z) : String.eqb (Py.str n) "" = false.
Proof. apply String.eqb_neq, str_nonempty. Qed.

(** ** Path components *)

Lemma append_cons (x : ascii) (s1 s2 : string) :
  String x s1 +:+ s2 = String x (s1 +:+ s2).
Proof. reflexivity. Qed.

Lemma append_nil (s : string) : "" +:+ s = s.
Proof. reflexivity. Qed.

Lemma append_snoc (cur r : string) (c : ascii) :
  (cur +:+ String c "") +:+ r = cur +:+ String c r.
Proof.
  induction cur as [|x cur IH]; [reflexivity|].
  by rewrite !append_cons, IH.
Qed.

Lemma append_empty_r (s : string) : s +:+ "" = s.
Proof.
  induction s as [|x s IH]; [reflexivity|]. by rewrite append_cons, IH.
Qed.

Lemma split_go_no_slash (s cur : string) :
  no_slash s → Pathlib.split_go cur s = [cur +:+ s].
Proof.
  revert cur. induction s as [|c r IH]; intros cur Hs; cbn.
  - by rewrite append_empty_r.
  - destruct Hs as [Hc Hr].
    destruct (Ascii.eqb_spec c "/"%char) as [->|_]; [done|].
    rewrite IH by done. by rewrite append_snoc.
Qed.

(** A name without a slash that is neither empty nor a dot is a path of
    one part. *)
Lemma parse_single (s : string) :
  no_slash s → s ≠ "" → s ≠ "." →
  Pathlib.parse s = Pathlib.MkPath false [s].
Proof.
  intros Hs Hne Hdot. unfold Pathlib.parse, Pathlib.split.
  rewrite split_go_no_slash by done. cbn. rewrite append_nil.
  unfold Pathlib.kept.
  apply String.eqb_neq in Hne, Hdot. rewrite Hne, Hdot. cbn.
  f_equal. destruct s as [|c r]; [done|].
  destruct Hs as [Hc _].
  destruct c as [[] [] [] [] [] [] [] []]; try reflexivity. done.
Qed.

Lemma string_of_uint_digits (d : Decimal.uint) :
  no_slash (NilEmpty.string_of_uint d)
  ∧ NilEmpty.string_of_uint d ≠ ".".
Proof.
  split.
  - induction d; cbn; try done; split; done.
  - destruct d; cbn; discriminate.
Qed.

Lemma str_single (n : Z) :
  Pathlib.parse (Py.str n) = Pathlib.MkPath false [Py.str n].
Proof.
  assert (Hu : ∀ d, no_slash (NilZero.string_of_uint d)
                    ∧ NilZero.string_of_uint d ≠ ".").
  { intros d. destruct d; try apply string_of_uint_digits.
    cbn. split; [done|discriminate]. }
  apply parse_single; [| apply str_nonempty |].
  - unfold Py.str, NilZero.string_of_int.
    destruct (Z.to_int n) as [d|d]; [apply Hu|]. cbn. split; [done|apply Hu].
  - unfold Py.str, NilZero.string_of_int.
    destruct (Z.to_int n) as [d|d]; [apply Hu|]. discriminate.
Qed.

Lemma allocated_single (num : string) :
  allocated num → Pathlib.parse num = Pathlib.MkPath false [num].
Proof. intros [->|[n ->]]; [reflexivity|apply str_single]. Qed.

(** ** The identifier allocator *)

Section AllocatorFacts.

Variable int_of : string → option Z.

Abbreviation unparseable := (λ x, int_of x = None).

Lemma loop_init_skipped l : loop_init l = skipped l 0.
Proof. unfold loop_init, skipped. f_equal; lia. Qed.

(** Skipping one unparseable entry from the end, with more entries still
    in front of it. *)
Lemma loop_body_skip l j :
  (S j < length l)%nat →
  (l !! (length l - S j)%nat) ≫= int_of = None →
  loop_body int_of l (skipped l j) = skipped l (S j).
Proof.
  intros Hj Hnone. unfold loop_body, skipped. simpl.
  replace (- (Z.of_nat j + 1)) with (- Z.of_nat (S j)) by lia.
  rewrite getitem_from_end by lia. rewrite Hnone. simpl.
  destruct (Z.eqb_spec (Z.of_nat (length l) - Z.of_nat j - 1) 0); [lia|].
  f_equal; lia.
Qed.

(** Reaching a parseable entry. *)
Lemma loop_body_hit l j s v :
  (S j ≤ length l)%nat →
  l !! (length l - S j)%nat = Some s → int_of s = Some v →
  loop_body int_of l (skipped l j)
  = LoopState (Z.of_nat j + 1) (Z.of_nat (length l) - Z.of_nat j)
              (Py.str (v + 1)) [].
Proof.
  intros Hj Hs Hv. unfold loop_body, skipped. simpl.
  replace (- (Z.of_nat j + 1)) with (- Z.of_nat (S j)) by lia.
  rewrite getitem_from_end by lia. rewrite Hs. simpl. rewrite Hv. simpl.
  destruct (Z.eqb_spec (Z.of_nat (length l) - Z.of_nat j) 0); [lia|].
  reflexivity.
Qed.

(** Skipping the very first entry of the listing: nothing is left. *)
Lemma loop_body_exhaust l j :
  S j = length l →
  (l !! 0%nat) ≫= int_of = None →
  loop_body int_of l (skipped l j)
  = LoopState (Z.of_nat j + 2) 0 "1" [no_id_warning].
Proof.
  intros Hj Hnone. unfold loop_body, skipped. simpl.
  replace (- (Z.of_nat j + 1)) with (- Z.of_nat (S j)) by lia.
  rewrite getitem_from_end by lia.
  replace (length l - S j)%nat with 0%nat by lia. rewrite Hnone. simpl.
  destruct (Z.eqb_spec (Z.of_nat (length l) - Z.of_nat j - 1) 0); [|lia].
  f_equal; lia.
Qed.

Lemma while_loop_done fuel l s :
  subvol_main_snapshot_number s ≠ "" → while_loop int_of fuel l s = Some s.
Proof.
  intros H. apply String.eqb_neq in H. destruct fuel; simpl; rewrite H; done.
Qed.

(** The scan from the end: the entries after the last parseable one are
    skipped, and that entry decides the result. *)
Lemma scan_hits pre s v suf n :
  int_of s = Some v → Forall unparseable suf →
  ∀ j fuel, length suf = (j + n)%nat → (n < fuel)%nat →
    while_loop int_of fuel (pre ++ s :: suf) (skipped (pre ++ s :: suf) j)
    = Some (LoopState (Z.of_nat (length suf) + 1)
              (Z.of_nat (length (pre ++ s :: suf)) - Z.of_nat (length suf))
              (Py.str (v + 1)) []).
Proof.
  intros Hv Hsuf. set (l := pre ++ s :: suf).
  assert (Hlen : length l = (length pre + S (length suf))%nat).
  { unfold l. rewrite length_app. reflexivity. }
  induction n as [|n IH]; intros j fuel Hj Hfuel.
  - destruct fuel as [|fuel]; [lia|]. simpl.
    rewrite (loop_body_hit l j s v); [| lia | | done].
    + rewrite while_loop_done by (simpl; apply str_nonempty).
      do 2 f_equal; lia.
    + replace (length l - S j)%nat with (length pre + 0)%nat by lia.
      unfold l. rewrite lookup_app_r by lia.
      replace (length pre + 0 - length pre)%nat with 0%nat by lia. done.
  - destruct fuel as [|fuel]; [lia|]. simpl.
    rewrite loop_body_skip.
    + apply IH; lia.
    + lia.
    + replace (length l - S j)%nat
        with (length pre + S (length suf - S j))%nat by lia.
      unfold l. rewrite lookup_app_r by lia.
      replace (length pre + S (length suf - S j) - length pre)%nat
        with (S (length suf - S j))%nat by lia.
      simpl.
      destruct (suf !! (length suf - S j)%nat) as [x|] eqn:Hx; [|done].
      simpl. eapply Forall_lookup_1 in Hsuf; eauto.
Qed.

Lemma scan_exhausts l n :
  Forall unparseable l →
  ∀ j fuel, length l = S (j + n) → (n < fuel)%nat →
    while_loop int_of fuel l (skipped l j)
    = Some (LoopState (Z.of_nat (length l) + 1) 0 "1" [no_id_warning]).
Proof.
  intros Hl. induction n as [|n IH]; intros j fuel Hj Hfuel.
  - destruct fuel as [|fuel]; [lia|]. simpl.
    rewrite loop_body_exhaust.
    + rewrite while_loop_done by (simpl; discriminate). do 2 f_equal. lia.
    + lia.
    + destruct (l !! 0%nat) as [x|] eqn:Hx; [|done].
      simpl. eapply Forall_lookup_1 in Hl; eauto.
  - destruct fuel as [|fuel]; [lia|]. simpl.
    rewrite loop_body_skip.
    + apply IH; lia.
    + lia.
    + destruct (l !! (length l - S j)%nat) as [x|] eqn:Hx; [|done].
      simpl. eapply Forall_lookup_1 in Hl; eauto.
Qed.

(** On an empty listing the length counter starts at 0, is decremented
    before it is tested, and never comes back to 0. *)
Lemma scan_empty_diverges fuel :
  ∀ k : nat,
    while_loop int_of fuel []
      (LoopState (Z.of_nat k + 1) (- Z.of_nat k) "" []) = None.
Proof.
  induction fuel as [|fuel IH]; intros k; [reflexivity|].
  simpl. unfold loop_body. simpl. rewrite getitem_nil. simpl.
  destruct (Z.eqb_spec (- Z.of_nat k - 1) 0); [lia|].
  replace (Z.of_nat k + 1 + 1) with (Z.of_nat (S k) + 1) by lia.
  replace (- Z.of_nat k - 1) with (- Z.of_nat (S k)) by lia.
  apply IH.
Qed.

End AllocatorFacts.

(** ** Results about the allocator *)

Lemma next_number_hits int_of pre s v suf fuel :
  int_of s = Some v → Forall (λ x, int_of x = None) suf →
  (length suf < fuel)%nat →
  next_number int_of fuel (pre ++ s :: suf) = Some (Py.str (v + 1), []).
Proof.
  intros Hv Hsuf Hfuel. unfold next_number.
  rewrite loop_init_skipped.
  rewrite (scan_hits int_of pre s v suf (length suf)); [done..| lia | done].
Qed.

Lemma next_number_exhausts int_of l fuel :
  l ≠ [] → Forall (λ x, int_of x = None) l → (length l ≤ fuel)%nat →
  next_number int_of fuel l = Some ("1", [no_id_warning]).
Proof.
  intros Hne Hl Hfuel. unfold next_number. rewrite loop_init_skipped.
  destruct l as [|x l']; [done|].
  rewrite (scan_exhausts int_of (x :: l') (length l')); [done | done | |];
    simpl in *; lia.
Qed.

Lemma list_max_ge (vs : list Z) d x :
  x ∈ vs → x ≤ fold_right Z.max d vs.
Proof.
  induction 1 as [x vs|x y vs _ IH]; simpl; lia.
Qed.

Lemma list_max_le (vs : list Z) d m :
  d ≤ m → Forall (λ n, n ≤ m) vs → fold_right Z.max d vs ≤ m.
Proof. intros Hd. induction 1; simpl; lia. Qed.

Lemma last_is_max (vs : list Z) :
  vs ≠ [] → Forall (λ n, n ≤ List.last vs 0) vs →
  List.last vs 0 = list_max vs.
Proof.
  intros Hne Hall. unfold list_max. apply Z.le_antisymm.
  - apply list_max_ge. destruct (exists_last Hne) as (vs' & x & ->).
    rewrite last_last. set_solver.
  - apply list_max_le; [|done].
    destruct vs as [|v vs']; [done|]. by inversion Hall.
Qed.

(** C3, as the code has it: the scan runs from the end of the listing,
    skips the names that do not parse, and the first name that parses
    decides the result, its value plus one.  For a listing of integer names
    only this is the last entry plus one, which is the maximum plus one
    whenever the last entry is the greatest. *)
Theorem allocator_scans_from_end (int_of : string → option Z) :
  (∀ pre s v suf fuel,
     int_of s = Some v → Forall (λ x, int_of x = None) suf →
     (length suf < fuel)%nat →
     next_number int_of fuel (pre ++ s :: suf) = Some (Py.str (v + 1), []))
  ∧ (∀ l vs fuel,
       l ≠ [] → mapM int_of l = Some vs → (0 < fuel)%nat →
       next_number int_of fuel l = Some (Py.str (List.last vs 0 + 1), [])
       ∧ (Forall (λ n, n ≤ List.last vs 0) vs →
          next_number int_of fuel l = Some (Py.str (list_max vs + 1), []))).
Proof.
  split; [apply next_number_hits|].
  intros l vs fuel Hne Hvs Hfuel.
  apply mapM_Some in Hvs.
  assert (Hlast : next_number int_of fuel l
                  = Some (Py.str (List.last vs 0 + 1), [])).
  { destruct (exists_last Hne) as (pre & s & ->).
    apply Forall2_app_inv_l in Hvs as (vs1 & vs2 & _ & Hs & ->).
    inversion Hs as [|? v ? ? Hv Hnil]; subst. inversion Hnil; subst.
    rewrite last_last. apply next_number_hits; [done | constructor | simpl; lia]. }
  split; [done|]. intros Hmax.
  rewrite <- last_is_max; [done | | done].
  intros ->. inversion Hvs; subst. done.
Qed.

Lemma allocator_scans_from_end_witness :
  next_number Py.int 3 ["9"; "12"; "lost+found"; ".keep"] = Some ("13", [])
  ∧ next_number Py.int 1 ["3"; "5"; "7"] = Some ("8", []).
Proof.
  split.
  - apply (proj1 (allocator_scans_from_end Py.int) ["9"] "12" 12
                 ["lost+found"; ".keep"] 3%nat).
    + reflexivity.
    + repeat constructor.
    + simpl; lia.
  - apply (proj2 (allocator_scans_from_end Py.int) ["3"; "5"; "7"] [3; 5; 7] 1%nat).
    + discriminate.
    + reflexivity.
    + lia.
    + repeat constructor; simpl; lia.
Defined.

(** C3 as stated fails when the listing is not in ascending order: for the
    listing 7, 3 the allocator answers 4, not 8. *)
Lemma allocator_not_maximum :
  mapM Py.int ["7"; "3"] = Some [7; 3]
  ∧ Py.str (list_max [7; 3] + 1) = "8"
  ∧ next_number Py.int 2 ["7"; "3"] = Some ("4", [])
  ∧ ¬ ∃ fuel, next_number Py.int fuel ["7"; "3"]
              = Some (Py.str (list_max [7; 3] + 1), []).
Proof.
  split; [reflexivity|]. split; [reflexivity|]. split; [reflexivity|].
  intros [fuel H].
  destruct fuel as [|fuel]; [discriminate|].
  assert (H' : next_number Py.int (S fuel) (["7"] ++ ["3"]) = Some ("4", [])).
  { apply (next_number_hits Py.int ["7"] "3" 3 [] (S fuel));
      [reflexivity | constructor | simpl; lia]. }
  change (["7"] ++ ["3"]) with ["7"; "3"] in H'.
  rewrite H' in H. discriminate.
Qed.

(** C4 at its failing input: on an empty listing the loop never ends,
    whatever the fuel. *)
Theorem allocator_empty_listing_diverges (int_of : string → option Z) (fuel : nat) :
  next_number int_of fuel [] = None.
Proof.
  unfold next_number, loop_init.
  change (LoopState 1 (Z.of_nat (length (@nil string))) "" [])
    with (LoopState (Z.of_nat 0 + 1) (- Z.of_nat 0) "" []).
  rewrite scan_empty_diverges. reflexivity.
Qed.

(** The other half of C4 holds: a listing that has entries, none of which
    parses, gives 1 and the warning. *)
Lemma allocator_no_numbered_entry int_of l fuel :
  l ≠ [] → Forall (λ x, int_of x = None) l → (length l ≤ fuel)%nat →
  next_number int_of fuel l = Some ("1", [no_id_warning]).
Proof. apply next_number_exhausts. Qed.

(** ** Keys and prefixes *)

Lemma strip_prefix_Some (a k r : key) :
  strip_prefix a k = Some r ↔ k = a ++ r.
Proof.
  revert k. induction a as [|x a IH]; intros k; simpl.
  - split; congruence.
  - destruct k as [|y k]; [split; discriminate|].
    destruct (String.eqb_spec x y) as [->|Hne].
    + rewrite IH. split; congruence.
    + split; [discriminate | congruence].
Qed.

Lemma strip_prefix_app (a r : key) : strip_prefix a (a ++ r) = Some r.
Proof. by apply strip_prefix_Some. Qed.

Lemma strip_prefix_None (a k : key) :
  strip_prefix a k = None ↔ ¬ a `prefix_of` k.
Proof.
  split.
  - intros H [r ->]. rewrite strip_prefix_app in H. discriminate.
  - intros H. destruct (strip_prefix a k) as [r|] eqn:E; [|done].
    apply strip_prefix_Some in E. destruct H. by exists r.
Qed.

Lemma is_prefix_true (a k : key) : is_prefix a k = true ↔ a `prefix_of` k.
Proof.
  unfold is_prefix. destruct (strip_prefix a k) as [r|] eqn:E.
  - apply strip_prefix_Some in E. split; [by exists r | done].
  - apply strip_prefix_None in E. split; [discriminate | done].
Qed.

Lemma is_prefix_false (a k : key) : is_prefix a k = false ↔ ¬ a `prefix_of` k.
Proof. rewrite <- is_prefix_true. destruct (is_prefix a k); naive_solver. Qed.

Lemma comparable_false (a b : key) :
  comparable a b = false ↔ ¬ a `prefix_of` b ∧ ¬ b `prefix_of` a.
Proof.
  unfold comparable. rewrite orb_false_iff, !is_prefix_false. done.
Qed.

Lemma comparable_sym (a b : key) : comparable a b = comparable b a.
Proof. unfold comparable. apply orb_comm. Qed.

Section Reroot.

Variables a b : key.
Hypothesis Hab : comparable a b = false.

Lemma not_both_prefixes (k : key) : a `prefix_of` k → b `prefix_of` k → False.
Proof.
  intros Ha Hb. apply comparable_false in Hab as [H1 H2].
  destruct (prefix_weak_total _ _ _ Ha Hb); done.
Qed.

Lemma reroot_below_src (r : key) : reroot a b (a ++ r) = b ++ r.
Proof. unfold reroot. by rewrite Hab, strip_prefix_app. Qed.

Lemma reroot_below_dst (r : key) : reroot a b (b ++ r) = a ++ r.
Proof.
  unfold reroot. rewrite Hab.
  destruct (strip_prefix a (b ++ r)) as [r'|] eqn:E.
  - apply strip_prefix_Some in E. exfalso.
    apply (not_both_prefixes (b ++ r)); [by exists r' | by exists r].
  - by rewrite strip_prefix_app.
Qed.

Lemma reroot_elsewhere (k : key) :
  ¬ a `prefix_of` k → ¬ b `prefix_of` k → reroot a b k = k.
Proof.
  intros Ha Hb. unfold reroot. rewrite Hab.
  apply strip_prefix_None in Ha, Hb. by rewrite Ha, Hb.
Qed.

Lemma reroot_src : reroot a b a = b.
Proof. rewrite <- (app_nil_r a) at 2. rewrite reroot_below_src. apply app_nil_r. Qed.

Lemma reroot_dst : reroot a b b = a.
Proof. rewrite <- (app_nil_r b) at 2. rewrite reroot_below_dst. apply app_nil_r. Qed.

Lemma reroot_involutive (k : key) : reroot a b (reroot a b k) = k.
Proof.
  destruct (decide (a `prefix_of` k)) as [[r ->]|Ha].
  { by rewrite reroot_below_src, reroot_below_dst. }
  destruct (decide (b `prefix_of` k)) as [[r ->]|Hb].
  { by rewrite reroot_below_dst, reroot_below_src. }
  by rewrite !(reroot_elsewhere k Ha Hb).
Qed.

End Reroot.

Lemma reroot_comparable (a b k : key) :
  comparable a b = true → reroot a b k = k.
Proof. intros H. unfold reroot. by rewrite H. Qed.

Global Instance reroot_inj (a b : key) : Inj (=) (=) (reroot a b).
Proof.
  intros k1 k2 H. destruct (comparable a b) eqn:Hab.
  - by rewrite !reroot_comparable in H.
  - rewrite <- (reroot_involutive a b Hab k1), H. by apply reroot_involutive.
Qed.

Lemma reroot_swap (a b k : key) :
  comparable a b = false → reroot b a k = reroot a b k.
Proof.
  intros Hab. assert (Hba : comparable b a = false) by by rewrite comparable_sym.
  destruct (decide (a `prefix_of` k)) as [[r ->]|Ha].
  { by rewrite reroot_below_src, reroot_below_dst. }
  destruct (decide (b `prefix_of` k)) as [[r ->]|Hb].
  { by rewrite reroot_below_src, reroot_below_dst. }
  rewrite (reroot_elsewhere a b Hab k Ha Hb).
  by rewrite (reroot_elsewhere b a Hba k Hb Ha).
Qed.

(** ** The name space after a move *)

Section Moved.

Variables (a b : key) (f : gmap key node).
Hypothesis Hab : comparable a b = false.

Lemma a_neq_b : a ≠ b.
Proof. intros ->. apply comparable_false in Hab as [H _]. by apply H. Qed.

Lemma lookup_moved (k : key) : moved a b f !! reroot a b k = delete b f !! k.
Proof. unfold moved. apply lookup_kmap, _. Qed.

Lemma lookup_moved_dst : moved a b f !! b = f !! a.
Proof.
  trans (moved a b f !! reroot a b a).
  { by rewrite (reroot_src a b Hab). }
  rewrite lookup_moved, lookup_delete_ne; [done|].
  intros ?. by apply a_neq_b.
Qed.

Lemma lookup_moved_src : moved a b f !! a = None.
Proof.
  trans (moved a b f !! reroot a b b).
  { by rewrite (reroot_dst a b Hab). }
  by rewrite lookup_moved, lookup_delete_eq.
Qed.

Lemma lookup_moved_elsewhere (k : key) :
  ¬ a `prefix_of` k → ¬ b `prefix_of` k → moved a b f !! k = f !! k.
Proof.
  intros Ha Hb.
  trans (moved a b f !! reroot a b k).
  { by rewrite (reroot_elsewhere a b Hab k Ha Hb). }
  rewrite lookup_moved, lookup_delete_ne; [done|]. by intros ->.
Qed.

End Moved.

(** Moving the tree back gives the name space without what was at the
    destination. *)
Lemma moved_back (a b : key) (f : gmap key node) :
  comparable a b = false → moved b a (moved a b f) = delete b f.
Proof.
  intros Hab.
  assert (Hba : comparable b a = false) by by rewrite comparable_sym.
  unfold moved at 1. rewrite (delete_id _ a) by by apply lookup_moved_src.
  apply map_eq. intros k.
  trans (kmap (M2:=gmap key) (reroot b a) (moved a b f)
           !! reroot b a (reroot a b k)).
  { by rewrite (reroot_swap a b _ Hab), (reroot_involutive a b Hab). }
  rewrite lookup_kmap; [|apply _]. by apply lookup_moved.
Qed.

(** ** Walking the name space *)

Lemma above_prefix (p k : key) : above p k → p `prefix_of` k ∧ p ≠ k.
Proof.
  intros (c & r & ->). split; [by eexists|].
  intros H. apply (f_equal length) in H. rewrite length_app in H. simpl in H. lia.
Qed.

Lemma above_not_prefix (a p k : key) :
  above p k → ¬ a `prefix_of` k → ¬ a `prefix_of` p.
Proof.
  intros (c & r & ->) Hk [q ->]. apply Hk.
  exists (q ++ c :: r). by rewrite <- app_assoc.
Qed.

Lemma walk_from_inr (f : gmap key node) (rest pre : key) (x : option node) :
  walk_from f pre rest = inr x ↔
  (∀ r c r', rest = r ++ c :: r' →
     ∃ n, node_at f (pre ++ r) = Some n ∧ dirlike n = true)
  ∧ x = node_at f (pre ++ rest).
Proof.
  revert pre. induction rest as [|c rest IH]; intros pre; simpl.
  - rewrite app_nil_r. split.
    + intros [= <-]. split; [|done]. intros [|??] ???; discriminate.
    + intros [_ ->]. done.
  - split.
    + intros H.
      destruct (node_at f pre) as [n|] eqn:Hn; [|discriminate].
      assert (Hd : dirlike n = true ∧ walk_from f (pre ++ [c]) rest = inr x).
      { destruct n; [discriminate|done..]. }
      destruct Hd as [Hd Hw]. apply IH in Hw as [Hanc ->].
      split; [|by rewrite <- app_assoc].
      intros [|c0 r] c' r' Heq; simplify_eq/=.
      * rewrite app_nil_r. eauto.
      * destruct (Hanc r c' r' eq_refl) as (m & Hm & Hdm).
        rewrite <- app_assoc in Hm. eauto.
    + intros [Hanc ->].
      destruct (Hanc [] c rest eq_refl) as (n & Hn & Hd).
      rewrite app_nil_r in Hn. rewrite Hn.
      assert (walk_from f (pre ++ [c]) rest = inr (node_at f (pre ++ c :: rest))) as Hw.
      { apply IH. split; [|by rewrite <- app_assoc].
        intros r c' r' ->.
        destruct (Hanc (c :: r) c' r' eq_refl) as (m & Hm & Hdm).
        rewrite <- app_assoc. eauto. }
      destruct n; [discriminate|done..].
Qed.

(** A walk succeeds exactly when every proper ancestor is a directory; it
    then yields what the name space has at the key. *)
Lemma walk_inr (f : gmap key node) (k : key) (x : option node) :
  walk f k = inr x ↔
  (∀ p, above p k → ∃ n, node_at f p = Some n ∧ dirlike n = true)
  ∧ x = node_at f k.
Proof.
  unfold walk. rewrite walk_from_inr. simpl. split.
  - intros [H ->]. split; [|done]. intros p (c & r & ->). eauto.
  - intros [H ->]. split; [|done]. intros r c r' ->. apply H. by exists c, r'.
Qed.

Lemma walk_agree (f f' : gmap key node) (k : key) (x : option node) :
  walk f k = inr x →
  (∀ p, above p k → node_at f' p = node_at f p) →
  walk f' k = inr (node_at f' k).
Proof.
  intros [Hanc _]%walk_inr Heq. apply walk_inr. split; [|done].
  intros p Hp. rewrite Heq by done. auto.
Qed.

Lemma node_at_cons (f : gmap key node) (k : key) :
  k ≠ [] → node_at f k = f !! k.
Proof. by destruct k. Qed.

Lemma node_at_eq (f f' : gmap key node) (k : key) :
  f' !! k = f !! k → node_at f' k = node_at f k.
Proof. by destruct k. Qed.

Lemma comparable_nonempty (a b : key) : comparable a b = false → a ≠ [] ∧ b ≠ [].
Proof.
  intros [H1 H2]%comparable_false.
  split; intros ->; [apply H1 | apply H2]; apply prefix_nil.
Qed.

(** ** What the system calls do *)

Arguments resolve : simpl never.
Arguments walk : simpl never.
Arguments moved : simpl never.
Arguments has_children : simpl never.
Arguments is_prefix : simpl never.
Arguments comparable : simpl never.
Arguments containing_subvol : simpl never.
Arguments snapshot_entries : simpl never.
Arguments makedirs_from : simpl never.
Arguments Pathlib.str : simpl never.
Arguments Pathlib.truediv : simpl never.
Arguments Pathlib.truediv_str : simpl never.
Arguments Pathlib.parse : simpl never.
Arguments String.append : simpl never.

Ltac munfold :=
  cbv beta iota zeta
      delta [mbind M_bind bind mret M_ret ret raise modify ask get
             LOG sys_exit enter try_except] in *;
  cbn in *.

Lemma os_rename_Ok (a b : string) (en : env) (s s1 : state) :
  os_rename a b en s = Ok tt s1 →
  fault en (Rename a b) = None
  ∧ ∃ n d,
      walk (fs s) (resolve en a) = inr (Some n)
      ∧ walk (fs s) (resolve en b) = inr d
      ∧ ((resolve en a = resolve en b ∧ s1 = add_trace (Rename a b) s)
         ∨ (comparable (resolve en a) (resolve en b) = false
            ∧ s1 = set_fs (moved (resolve en a) (resolve en b) (fs s))
                          (add_trace (Rename a b) s))).
Proof.
  unfold os_rename. munfold.
  destruct (fault en (Rename a b)); cbn; [discriminate|].
  destruct (walk (fs s) (resolve en a)) as [|[n|]] eqn:Ha; cbn; try discriminate.
  destruct (walk (fs s) (resolve en b)) as [|d] eqn:Hb; cbn; try discriminate.
  intros H. split; [done|]. exists n, d. split; [done|]. split; [done|].
  case_bool_decide as Heq; cbn.
  { left. split; [done|]. congruence. }
  right.
  destruct (is_prefix (resolve en a) (resolve en b)) eqn:H1; cbn; [discriminate|].
  destruct (is_prefix (resolve en b) (resolve en a)) eqn:H2; cbn; [discriminate|].
  split; [unfold comparable; by rewrite H1, H2|].
  destruct n as [c| |v], d as [[c'| |v']|]; cbn in H; try discriminate;
    try (destruct (has_children (fs s) (resolve en b)); cbn in H; try discriminate);
    congruence.
Qed.

Lemma os_rename_Raise (a b : string) (en : env) (s s1 : state) (e : exn) :
  os_rename a b en s = Raise e s1 →
  (∃ n, e = os_error n) ∧ s1 = add_trace (Rename a b) s.
Proof.
  unfold os_rename. munfold.
  destruct (fault en (Rename a b)); cbn; [intros [= <- <-]; eauto|].
  destruct (walk (fs s) (resolve en a)) as [|[n|]]; cbn; try (intros [= <- <-]; by eauto).
  destruct (walk (fs s) (resolve en b)) as [|d]; cbn; try (intros [= <- <-]; by eauto).
  case_bool_decide; cbn; [discriminate|].
  destruct (is_prefix (resolve en a) (resolve en b)); cbn; [intros [= <- <-]; by eauto|].
  destruct (is_prefix (resolve en b) (resolve en a)); cbn; [intros [= <- <-]; by eauto|].
  destruct n as [c| |v], d as [[c'| |v']|]; cbn;
    try (destruct (has_children (fs s) (resolve en b))); cbn;
    try discriminate; intros [= <- <-]; by eauto.
Qed.

Lemma os_rename_total (a b : string) (en : env) (s : state) :
  os_rename a b en s ≠ OutOfFuel.
Proof.
  unfold os_rename. munfold.
  destruct (fault en (Rename a b)); cbn; [discriminate|].
  destruct (walk (fs s) (resolve en a)) as [|[n|]]; cbn; try discriminate.
  destruct (walk (fs s) (resolve en b)) as [|d]; cbn; try discriminate.
  case_bool_decide; cbn; [discriminate|].
  destruct (is_prefix (resolve en a) (resolve en b)); cbn; [discriminate|].
  destruct (is_prefix (resolve en b) (resolve en a)); cbn; [discriminate|].
  destruct n as [c| |v], d as [[c'| |v']|]; cbn;
    try (destruct (has_children (fs s) (resolve en b))); cbn; discriminate.
Qed.

(** A rename onto a vacant path moves the tree. *)
Lemma os_rename_moves (a b : string) (en : env) (s : state) (n : node) :
  fault en (Rename a b) = None →
  walk (fs s) (resolve en a) = inr (Some n) →
  walk (fs s) (resolve en b) = inr None →
  comparable (resolve en a) (resolve en b) = false →
  os_rename a b en s
  = Ok tt (set_fs (moved (resolve en a) (resolve en b) (fs s))
                  (add_trace (Rename a b) s)).
Proof.
  intros Hf Ha Hb Hab. unfold os_rename. munfold.
  rewrite Hf. cbn. rewrite Ha, Hb.
  assert (Hne : resolve en a ≠ resolve en b) by by apply a_neq_b.
  rewrite bool_decide_eq_false_2 by done.
  unfold comparable in Hab. apply orb_false_iff in Hab as [-> ->].
  by destruct n.
Qed.

Lemma create_snapshot_Raise (a b : string) (en : env) (s s1 : state) (e : exn) :
  btrfsutil_create_snapshot a b en s = Raise e s1 →
  (∃ n, e = BtrfsUtilError n) ∧ s1 = add_trace (CreateSnapshot a b false) s.
Proof.
  unfold btrfsutil_create_snapshot. munfold.
  destruct (fault en _); cbn; [intros [= <- <-]; eauto|].
  destruct (walk (fs s) (resolve en a)) as [|[[c| |v]|]]; cbn;
    try (intros [= <- <-]; by eauto);
    destruct (walk (fs s) (resolve en b)) as [|[d|]]; cbn;
    try (intros [= <- <-]; by eauto).
  destruct (resolve en b); cbn; [intros [= <- <-]; by eauto | discriminate].
Qed.

Lemma create_snapshot_Ok (a b : string) (en : env) (s s1 : state) :
  btrfsutil_create_snapshot a b en s = Ok tt s1 →
  ∃ v, walk (fs s1) (resolve en b) = inr (Some (Subvol v))
       ∧ trace s1 = trace s ++ [CreateSnapshot a b false]
       ∧ log s1 = log s.
Proof.
  unfold btrfsutil_create_snapshot. munfold.
  destruct (fault en _); cbn; [discriminate|].
  destruct (walk (fs s) (resolve en a)) as [|[[c| |v]|]]; cbn; try discriminate;
    destruct (walk (fs s) (resolve en b)) as [|[d|]] eqn:Hb; cbn; try discriminate.
  destruct (resolve en b) as [|c k] eqn:Hk; cbn; [discriminate|].
  intros [= <-]. simpl. eexists. split; [|done].
  eapply walk_agree in Hb as ->.
  - simpl. by rewrite lookup_insert_eq.
  - intros p Hp.
    destruct (above_prefix _ _ Hp) as [_ Hne].
    apply walk_inr in Hb as [Hanc _].
    destruct (Hanc p Hp) as (m & Hm & _).
    destruct p as [|c' p]; [done|]. cbn in *.
    rewrite lookup_insert_ne by done.
    rewrite Hm. by apply lookup_union_Some_l.
Qed.

Lemma create_snapshot_total (a b : string) (en : env) (s : state) :
  btrfsutil_create_snapshot a b en s ≠ OutOfFuel.
Proof.
  unfold btrfsutil_create_snapshot. munfold.
  destruct (fault en _); cbn; [discriminate|].
  destruct (walk (fs s) (resolve en a)) as [|[[c| |v]|]]; cbn; try discriminate;
    destruct (walk (fs s) (resolve en b)) as [|[d|]]; cbn; try discriminate.
  destruct (resolve en b); cbn; discriminate.
Qed.

Lemma set_default_Raise (p : string) (en : env) (s s1 : state) (e : exn) :
  btrfsutil_set_default_subvolume p en s = Raise e s1 →
  (∃ n, e = BtrfsUtilError n) ∧ s1 = add_trace (SetDefaultSubvolume p) s.
Proof.
  unfold btrfsutil_set_default_subvolume. munfold.
  destruct (fault en _); cbn; [intros [= <- <-]; eauto|].
  destruct (walk (fs s) (resolve en p)) as [|[n|]]; cbn;
    try discriminate; intros [= <- <-]; by eauto.
Qed.

Lemma set_default_Ok (p : string) (en : env) (s s1 : state) :
  btrfsutil_set_default_subvolume p en s = Ok tt s1 →
  fs s1 = fs s ∧ trace s1 = trace s ++ [SetDefaultSubvolume p] ∧ log s1 = log s.
Proof.
  unfold btrfsutil_set_default_subvolume. munfold.
  destruct (fault en _); cbn; [discriminate|].
  destruct (walk (fs s) (resolve en p)) as [|[n|]]; cbn; try discriminate.
  by intros [= <-].
Qed.

Lemma set_default_total (p : string) (en : env) (s : state) :
  btrfsutil_set_default_subvolume p en s ≠ OutOfFuel.
Proof.
  unfold btrfsutil_set_default_subvolume. munfold.
  destruct (fault en _); cbn; [discriminate|].
  destruct (walk (fs s) (resolve en p)) as [|[n|]]; cbn; discriminate.
Qed.

Lemma os_path_isdir_eq (p : string) (en : env) (s : state) :
  os_path_isdir p en s
  = Ok (match walk (fs s) (resolve en p) with
        | inr (Some n) => dirlike n
        | _ => false
        end) (add_trace (Isdir p) s).
Proof. reflexivity. Qed.

(** ** The compensating rename *)

(** Steps (b) and (c) after a successful step (a): when they raise with
    the main path vacant, it is the snapshot that failed, and nothing but
    the trace has changed since the rename. *)
Lemma later_step_raises (src main : string) (en : env) (s1 s2 : state) (e : exn) :
  (btrfsutil_create_snapshot src main;;
   btrfsutil_set_default_subvolume main) en s1 = Raise e s2 →
  (∃ n, e = BtrfsUtilError n)
  ∧ (walk (fs s2) (resolve en main) = inr None →
     s2 = add_trace (CreateSnapshot src main false) s1).
Proof.
  munfold.
  destruct (btrfsutil_create_snapshot src main en s1) as [[] s1'|e' s1'|] eqn:Hsnap;
    [| |discriminate].
  - intros Hdef. apply set_default_Raise in Hdef as [He ->].
    split; [done|]. intros Hvac. cbn in Hvac.
    apply create_snapshot_Ok in Hsnap as (v & Hv & _). congruence.
  - intros [= <- <-]. apply create_snapshot_Raise in Hsnap as [He ->]. done.
Qed.

(** C1: when the rename of the main subvolume succeeded and the snapshot or
    set-default step then raises a btrfs error with the main path vacant,
    [rollback] issues the rename of the rollback-target path back to the
    main path; once that rename is carried out the main path holds the
    original subvolume again, the rollback-target path is gone, and the
    name space is the one before the operation (less whatever empty
    directory the first rename replaced). *)
Theorem compensation_restores_layout
    (subvol_main subvol_main_newname subvol_rollback_src : Path)
    (dev : option string) (en : env) (s s1 s2 : state) (e : exn) :
  let main_s := Pathlib.str subvol_main in
  let new_s := Pathlib.str subvol_main_newname in
  let km := resolve en main_s in
  let kn := resolve en new_s in
  os_rename main_s new_s en s = Ok tt s1 →
  (btrfsutil_create_snapshot (Pathlib.str subvol_rollback_src) main_s;;
   btrfsutil_set_default_subvolume main_s) en s1 = Raise e s2 →
  walk (fs s2) km = inr None →
  (∃ s' t,
     final_state (rollback subvol_main subvol_main_newname subvol_rollback_src
                           dev false en s) = Some s'
     ∧ trace s' = trace s ++ t ++ [Rename new_s main_s])
  ∧ (fault en (Rename new_s main_s) = None →
     ∃ s' n,
       rollback subvol_main subvol_main_newname subvol_rollback_src
                dev false en s = Ok tt s'
       ∧ walk (fs s) km = inr (Some n)
       ∧ walk (fs s') km = inr (Some n)
       ∧ walk (fs s') kn = inr None
       ∧ fs s' = delete kn (fs s)
       ∧ (walk (fs s) kn = inr None → fs s' = fs s)
       ∧ mounts s' = mounts s
       ∧ default_subvol s' = default_subvol s
       ∧ next_subvol_id s' = next_subvol_id s).
Proof.
  intros main_s new_s km kn Hren Hlater Hvac.
  destruct (later_step_raises _ _ _ _ _ _ Hlater) as [[n0 ->] Hs2].
  specialize (Hs2 Hvac). subst s2. cbn in Hvac.
  destruct (os_rename_Ok _ _ _ _ _ Hren) as (Hf & n & d & Hmain & Hnew & Hcase).
  fold main_s new_s km kn in Hmain, Hnew, Hcase.
  destruct Hcase as [[Heq ->]|[Hab ->]].
  { cbn in Hvac. congruence. }
  cbn in Hvac.
  (* the state in which the handler calls the rename *)
  set (sh := add_log (INFO, "Moving " +:+ new_s +:+ " back to " +:+ main_s)
               (add_trace (Isdir main_s)
                  (add_log (ERROR, "{e}")
                     (add_trace (CreateSnapshot (Pathlib.str subvol_rollback_src)
                                                main_s false)
                        (set_fs (moved km kn (fs s))
                                (add_trace (Rename main_s new_s) s)))))).
  assert (Hroll : rollback subvol_main subvol_main_newname subvol_rollback_src
                           dev false en s = os_rename new_s main_s en sh).
  { unfold rollback, reposition, restore_old_root. munfold.
    fold main_s new_s. rewrite Hren. cbn.
    munfold. rewrite Hlater. cbn.
    rewrite os_path_isdir_eq. cbn. fold km. rewrite Hvac. cbn. reflexivity. }
  assert (Hba : comparable kn km = false) by by rewrite comparable_sym.
  destruct (comparable_false km kn) as [[Hmn Hnm] _]; [done|].
  assert (Hsrc : walk (fs sh) kn = inr (Some n)).
  { cbn. eapply walk_agree in Hnew as ->.
    - rewrite node_at_cons by by apply (comparable_nonempty km kn).
      rewrite lookup_moved_dst by done.
      destruct (proj1 (walk_inr _ _ _) Hmain) as [_ Hn].
      rewrite node_at_cons in Hn by by apply (comparable_nonempty km kn).
      congruence.
    - intros p Hp. destruct p as [|c p]; [done|]. cbn.
      destruct (above_prefix _ _ Hp) as [Hpre Hne].
      apply lookup_moved_elsewhere; [done| |].
      + by eapply above_not_prefix.
      + intros Hk. apply Hne. by apply (anti_symm prefix). }
  split.
  - rewrite Hroll.
    destruct (os_rename new_s main_s en sh) as [[] s'|e' s'|] eqn:Hback.
    + destruct (os_rename_Ok _ _ _ _ _ Hback) as (_ & _ & _ & _ & _ & Hc).
      exists s'. eexists [_; _; _]. split; [done|].
      destruct Hc as [[_ ->]|[_ ->]]; cbn; by rewrite <- !app_assoc.
    + apply os_rename_Raise in Hback as [_ ->].
      exists (add_trace (Rename new_s main_s) sh). eexists [_; _; _].
      split; [done|]. cbn. by rewrite <- !app_assoc.
    + by apply os_rename_total in Hback.
  - intros Hfault. rewrite Hroll.
    rewrite (os_rename_moves new_s main_s en sh n Hfault Hsrc Hvac Hba).
    eexists _, n. split; [done|]. cbn.
    fold km kn. rewrite moved_back by done.
    assert (Hkeep : ∀ k x, walk (fs s) k = inr x → ¬ kn `prefix_of` k ∨ k = kn →
                    walk (delete kn (fs s)) k = inr (node_at (delete kn (fs s)) k)).
    { intros k x Hk Hcase. eapply walk_agree; [done|].
      intros p Hp. destruct p as [|c p]; [done|]. cbn.
      apply lookup_delete_ne. intros Heq. rewrite <- Heq in Hp.
      destruct (above_prefix _ _ Hp) as [Hpre Hne].
      destruct Hcase as [Hno| ->]; done. }
    split; [done|]. split.
    { rewrite (Hkeep km (Some n)) by auto.
      destruct (proj1 (walk_inr _ _ _) Hmain) as [_ Hn].
      rewrite node_at_cons in * by by apply (comparable_nonempty km kn).
      rewrite lookup_delete_ne; [congruence|].
      intros Heq. apply Hnm. by rewrite Heq. }
    split.
    { rewrite (Hkeep kn d) by auto.
      rewrite node_at_cons by by apply (comparable_nonempty km kn).
      by rewrite lookup_delete_eq. }
    split; [done|]. split; [|done].
    intros Hnone. apply delete_id.
    apply walk_inr in Hnone as [_ Hn].
    rewrite node_at_cons in Hn by by apply (comparable_nonempty km kn).
    done.
Qed.

Lemma compensation_restores_layout_witness :
  let en := Scenario.world (Line "CONFIRM") Scenario.snapshot_fails 0 ["3"; "5"; "7"] in
  ∃ s',
    rollback Scenario.subvol_main Scenario.subvol_main_dst
             Scenario.subvol_rollback_src (Some "/dev/sda1") false
             en Scenario.st_ready = Ok tt s'
    ∧ fs s' = fs Scenario.st_ready
    ∧ fs s' !! ["btrfsroot"; "@"] = Some Scenario.root_subvol
    ∧ fs s' !! ["btrfsroot"; "@snapshots"; "8"; "snapshot"] = None.
Proof.
  intros en.
  set (main_s := Pathlib.str Scenario.subvol_main).
  set (new_s := Pathlib.str Scenario.subvol_main_dst).
  set (src_s := Pathlib.str Scenario.subvol_rollback_src).
  set (s1 := match os_rename main_s new_s en Scenario.st_ready with
             | Ok _ s => s
             | _ => Scenario.st_ready
             end).
  set (s2 := add_trace (CreateSnapshot src_s main_s false) s1).
  assert (H1 : os_rename main_s new_s en Scenario.st_ready = Ok tt s1)
    by (vm_compute; reflexivity).
  assert (H2 : (btrfsutil_create_snapshot src_s main_s;;
                btrfsutil_set_default_subvolume main_s) en s1
               = Raise (BtrfsUtilError ENOSPC) s2)
    by (vm_compute; reflexivity).
  assert (H3 : walk (fs s2) (resolve en main_s) = inr None)
    by (vm_compute; reflexivity).
  destruct (compensation_restores_layout
              Scenario.subvol_main Scenario.subvol_main_dst
              Scenario.subvol_rollback_src (Some "/dev/sda1") en
              Scenario.st_ready s1 s2 (BtrfsUtilError ENOSPC) H1 H2 H3)
    as [_ Hrestored].
  destruct (Hrestored eq_refl)
    as (s' & n & Hroll & Hmain & Hmain' & Hnew & _ & Hsame & _).
  exists s'. split; [exact Hroll|].
  assert (Hfs : fs s' = fs Scenario.st_ready).
  { apply Hsame. vm_compute. reflexivity. }
  split; [exact Hfs|]. rewrite Hfs. split; vm_compute; reflexivity.
Defined.

(** ** The order of the repositioning calls *)

Lemma os_rename_final (a b : string) (en : env) (s : state) :
  ∃ s', final_state (os_rename a b en s) = Some s'
        ∧ trace s' = trace s ++ [Rename a b]
        ∧ log s' = log s.
Proof.
  destruct (os_rename a b en s) as [[] s'|e s'|] eqn:H.
  - destruct (os_rename_Ok _ _ _ _ _ H) as (_ & _ & _ & _ & _ & Hc).
    exists s'. split; [done|]. by destruct Hc as [[_ ->]|[_ ->]].
  - apply os_rename_Raise in H as [_ ->]. by eexists.
  - by apply os_rename_total in H.
Qed.

(** The [except BtrfsUtilError] clause looks at the main path and makes at
    most one call that changes anything: the rename back. *)
Lemma restore_old_root_trace (main new : Path) (en : env) (s : state) :
  ∃ s' comp,
    final_state (restore_old_root main new false en s) = Some s'
    ∧ trace s' = trace s ++ comp
    ∧ (comp = [Isdir (Pathlib.str main)]
       ∨ comp = [Isdir (Pathlib.str main);
                 Rename (Pathlib.str new) (Pathlib.str main)]).
Proof.
  unfold restore_old_root. munfold. rewrite os_path_isdir_eq. cbn.
  destruct (match walk (fs s) (resolve en (Pathlib.str main)) with
            | inr (Some n) => dirlike n
            | _ => false
            end); cbn.
  - eexists _, _. split; [done|]. cbn. auto.
  - match goal with
    | |- context [os_rename ?a ?b ?e ?st] =>
        destruct (os_rename_final a b e st) as (s' & Hfin & Htr & _)
    end.
    exists s'. eexists. split; [exact Hfin|]. rewrite Htr. cbn.
    rewrite <- app_assoc. auto.
Qed.

Lemma moved_vacates (a b : key) (f : gmap key node) (n : node) :
  comparable a b = false → walk f a = inr (Some n) →
  walk (moved a b f) a = inr None.
Proof.
  intros Hab Ha.
  destruct (comparable_false a b) as [[H1 H2] _]; [done|].
  eapply walk_agree in Ha as ->.
  - rewrite node_at_cons by by apply (comparable_nonempty a b).
    by rewrite lookup_moved_src.
  - intros p Hp. destruct p as [|c p]; [done|]. cbn.
    destruct (above_prefix _ _ Hp) as [Hpre Hne].
    apply lookup_moved_elsewhere; [done| |].
    + intros Hk. apply Hne. by apply (anti_symm prefix).
    + by eapply above_not_prefix.
Qed.


(** ** Relating the state before and after a computation *)

Section Preserves.

Context (R : state → state → Prop) `{!PreOrder R}.

Lemma preserves_mret {A} (a : A) : preserves R (mret a).
Proof. intros en s s' [= <-]. reflexivity. Qed.

Lemma preserves_raise {A} (e : exn) : preserves R (@raise A e).
Proof. intros en s s' [= <-]. reflexivity. Qed.

Lemma preserves_ask : preserves R ask.
Proof. intros en s s' [= <-]. reflexivity. Qed.

Lemma preserves_get : preserves R get.
Proof. intros en s s' [= <-]. reflexivity. Qed.

Lemma preserves_diverge {A} : preserves R (λ _ _, @OutOfFuel A).
Proof. intros en s s' [=]. Qed.

Lemma preserves_modify (f : state → state) :
  (∀ s, R s (f s)) → preserves R (modify f).
Proof. intros H en s s' [= <-]. apply H. Qed.

Lemma preserves_bind {A B} (c : M A) (k : A → M B) :
  preserves R c → (∀ a, preserves R (k a)) → preserves R (c ≫= k).
Proof.
  intros Hc Hk en s s'. munfold.
  destruct (c en s) as [a s1|e s1|] eqn:E; cbn; [| |discriminate].
  - intros H. transitivity s1.
    + apply (Hc en). by rewrite E.
    + by apply (Hk a en).
  - intros [= <-]. apply (Hc en). by rewrite E.
Qed.

Lemma preserves_try_except {A} (c : M A) (h : exn → option (M A)) :
  preserves R c → (∀ e k, h e = Some k → preserves R k) →
  preserves R (try_except c h).
Proof.
  intros Hc Hh en s s'. munfold.
  destruct (c en s) as [a s1|e s1|] eqn:E; cbn; [| |discriminate].
  - intros [= <-]. apply (Hc en). by rewrite E.
  - destruct (h e) as [k|] eqn:Hk.
    + intros H. transitivity s1.
      * apply (Hc en). by rewrite E.
      * by apply (Hh e k Hk en).
    + intros [= <-]. apply (Hc en). by rewrite E.
Qed.

Lemma preserves_LOG (l : level) (msg : string) :
  (∀ r s, R s (add_log r s)) → preserves R (LOG l msg).
Proof. intros H. apply preserves_modify. intros s. apply H. Qed.

Lemma preserves_enter (c : syscall) (mk : errno → exn) :
  (∀ s, R s (add_trace c s)) → preserves R (enter c mk).
Proof.
  intros H. unfold enter.
  apply preserves_bind; [by apply preserves_modify|]. intros _.
  apply preserves_bind; [apply preserves_ask|]. intros en.
  destruct (fault en c); [apply preserves_raise|apply preserves_mret].
Qed.

Lemma preserves_config_get (c : config) (sec opt : string) :
  preserves R (config_get c sec opt).
Proof.
  unfold config_get.
  destruct (config_lookup c sec opt); [apply preserves_raise|apply preserves_mret].
Qed.

End Preserves.

Global Instance quiet_preorder : PreOrder quiet.
Proof.
  split.
  - intros s. split; try done. exists []. by rewrite app_nil_r.
  - intros s1 s2 s3 [? ? ? ? (t1 & Ht1 & Hr1)] [? ? ? ? (t2 & Ht2 & Hr2)].
    split; try congruence.
    exists (t1 ++ t2). split; [|by apply Forall_app].
    rewrite Ht2, Ht1. by rewrite <- app_assoc.
Qed.

Global Instance subvolumes_kept_preorder : PreOrder subvolumes_kept.
Proof.
  split.
  - intros s. split; try done. exists []. by rewrite app_nil_r.
  - intros s1 s2 s3 [Hs1 ? ? (t1 & Ht1 & Hr1)] [Hs2 ? ? (t2 & Ht2 & Hr2)].
    split; [|congruence|congruence|].
    + intros k. by rewrite Hs2, Hs1.
    + exists (t1 ++ t2). split; [|by apply Forall_app].
      rewrite Ht2, Ht1. by rewrite <- app_assoc.
Qed.

Lemma quiet_add_log (r : logrec) (s : state) : quiet s (add_log r s).
Proof. split; try done. exists []. by rewrite app_nil_r. Qed.

Lemma quiet_add_trace (c : syscall) (s : state) :
  readonly_call c → quiet s (add_trace c s).
Proof. intros H. split; try done. exists [c]. split; [done|]. by constructor. Qed.

Lemma kept_add_log (r : logrec) (s : state) : subvolumes_kept s (add_log r s).
Proof. split; try done. exists []. by rewrite app_nil_r. Qed.

Lemma kept_add_trace (c : syscall) (s : state) :
  ¬ repositioning_call c → subvolumes_kept s (add_trace c s).
Proof. intros H. split; try done. exists [c]. split; [done|]. by constructor. Qed.

Lemma kept_set_fs (f : gmap key node) (s : state) :
  (∀ k, subvol_at f k = subvol_at (fs s) k) → subvolumes_kept s (set_fs f s).
Proof. intros H. split; try done. exists []. by rewrite app_nil_r. Qed.

Lemma quiet_kept (s s' : state) : quiet s s' → subvolumes_kept s s'.
Proof.
  intros [Hfs ? ? ? (t & Ht & Hr)]. split; [|done|done|].
  - intros k. by rewrite Hfs.
  - exists t. split; [done|]. eapply Forall_impl; [exact Hr|].
    intros []; cbn; tauto.
Qed.

Lemma preserves_weaken {A} (R R' : state → state → Prop) (c : M A) :
  (∀ s s', R s s' → R' s s') → preserves R c → preserves R' c.
Proof. intros H Hc en s s' Hs. apply H, (Hc en), Hs. Qed.

Create HintDb presdb.

Ltac pres_case :=
  match goal with
  | |- preserves _ (match ?x with _ => _ end) => destruct x
  | |- preserves _ (let _ := _ in _) => cbv zeta
  end.

Ltac pres :=
  repeat first
    [ solve [auto with presdb]
    | apply preserves_mret; apply _
    | apply preserves_raise; apply _
    | apply preserves_ask; apply _
    | apply preserves_get; apply _
    | apply preserves_diverge
    | apply preserves_config_get; apply _
    | apply preserves_bind; [apply _ | | intros ?]
    | pres_case ].

Lemma trace_quiet (c : syscall) :
  readonly_call c → preserves quiet (modify (add_trace c)).
Proof. intros H. apply preserves_modify. intros s. by apply quiet_add_trace. Qed.

Lemma LOG_quiet l msg : preserves quiet (LOG l msg).
Proof. apply preserves_LOG. apply quiet_add_log. Qed.

Lemma log_quiet (r : logrec) : preserves quiet (modify (add_log r)).
Proof. apply preserves_modify. intros s. apply quiet_add_log. Qed.

#[export] Hint Resolve LOG_quiet log_quiet : presdb.
#[export] Hint Extern 1 (preserves quiet (modify (add_trace _))) =>
  apply trace_quiet; exact I : presdb.

(** *** Calls that only read *)

Lemma os_path_isdir_quiet p : preserves quiet (os_path_isdir p).
Proof. unfold os_path_isdir. pres. Qed.

Lemma os_path_ismount_quiet p : preserves quiet (os_path_ismount p).
Proof. unfold os_path_ismount. pres. Qed.

Lemma os_listdir_quiet p : preserves quiet (os_listdir p).
Proof. unfold os_listdir. pres. Qed.

Lemma minidom_parse_quiet p : preserves quiet (minidom_parse p).
Proof. unfold minidom_parse. pres. Qed.

Lemma input_quiet prompt : preserves quiet (input prompt).
Proof. unfold input. pres. Qed.

#[export] Hint Resolve os_path_isdir_quiet os_path_ismount_quiet os_listdir_quiet
  minidom_parse_quiet input_quiet : presdb.

Lemma getNextSnapshotNumber_quiet fuel : preserves quiet (getNextSnapshotNumber fuel).
Proof.
  unfold getNextSnapshotNumber.
  apply preserves_bind; [apply _|apply os_listdir_quiet|]. intros l.
  destruct (next_number Py.int fuel l) as [[num records]|]; [|apply preserves_diverge].
  apply preserves_bind; [apply _| |intros _; apply preserves_mret; apply _].
  apply preserves_modify. intros s. split; try done.
  exists []. by rewrite app_nil_r.
Qed.

Lemma source_snapshot_date_quiet src_id :
  preserves quiet (source_snapshot_date src_id).
Proof. unfold source_snapshot_date. pres. Qed.

#[export] Hint Resolve getNextSnapshotNumber_quiet source_snapshot_date_quiet : presdb.

(** *** The script in dry-run mode *)

Lemma ensure_dir_quiet dirpath : preserves quiet (ensure_dir dirpath true).
Proof.
  unfold ensure_dir. pres.
  apply preserves_try_except; [apply _|pres|].
  intros e k Hk. destruct (is_OSError e); [|done]. injection Hk as <-. pres.
Qed.

#[export] Hint Resolve ensure_dir_quiet : presdb.

Lemma mount_subvol_id5_quiet target source :
  preserves quiet (mount_subvol_id5 target source true).
Proof. unfold mount_subvol_id5. pres. Qed.

Lemma createNextSubvolumeNumber_quiet mountpoint cfg dest :
  preserves quiet (createNextSubvolumeNumber mountpoint cfg dest true).
Proof. unfold createNextSubvolumeNumber. pres. Qed.

Lemma generateXML_quiet file_name num src_id :
  preserves quiet (generateXML file_name num src_id true).
Proof. unfold generateXML. pres. Qed.

Lemma reposition_quiet main new src : preserves quiet (reposition main new src true).
Proof. unfold reposition. pres. Qed.

Lemma restore_old_root_quiet main new :
  preserves quiet (restore_old_root main new true).
Proof. unfold restore_old_root. pres. Qed.

Lemma rollback_quiet main new src dev : preserves quiet (rollback main new src dev true).
Proof.
  unfold rollback.
  apply preserves_try_except; [apply _|apply reposition_quiet|].
  intros e k Hk.
  destruct (is_FileNotFoundError e); [injection Hk as <-; pres|].
  destruct (is_BtrfsUtilError e); [|done].
  injection Hk as <-. apply restore_old_root_quiet.
Qed.

#[export] Hint Resolve mount_subvol_id5_quiet createNextSubvolumeNumber_quiet
  generateXML_quiet rollback_quiet : presdb.

Lemma confirm_quiet : preserves quiet confirm.
Proof.
  unfold confirm.
  apply preserves_try_except; [apply _| |].
  - unfold sys_exit. pres.
  - intros e k Hk. destruct (is_KeyboardInterrupt e); [|done].
    injection Hk as <-. unfold sys_exit. pres.
Qed.

Lemma permission_denied_preserves (R : state → state → Prop) `{!PreOrder R} e k :
  (∀ r s, R s (add_log r s)) →
  permission_denied e = Some k → preserves R k.
Proof.
  intros Hlog. unfold permission_denied.
  destruct (is_PermissionError e); [|done]. intros [= <-].
  apply preserves_bind; [done|by apply preserves_LOG|].
  intros _. by apply preserves_raise.
Qed.

Lemma main_body_quiet fuel a cfg mountpoint subvol_main src dev :
  dry_run a = true →
  preserves quiet (main_body fuel a cfg mountpoint subvol_main src dev).
Proof. intros Hdry. unfold main_body. rewrite Hdry. pres. Qed.

Lemma main_quiet fuel a : dry_run a = true → preserves quiet (main fuel a).
Proof.
  intros Hdry. unfold main, read_config.
  pres.
  { apply preserves_try_except; [apply _|pres|].
    intros e k Hk. destruct (is_NoOptionError e); [|done].
    injection Hk as <-. pres. }
  { apply confirm_quiet. }
  apply preserves_try_except; [apply _|by apply main_body_quiet|].
  intros e k Hk.
  eapply permission_denied_preserves; [apply _|apply quiet_add_log|done].
Qed.

(** *** The steps before the repositioning, in any mode *)

Lemma subvol_at_insert_plain (f : gmap key node) (k j : key) (n : node) :
  (∀ v, n ≠ Subvol v) → subvol_at f k = None →
  subvol_at (<[k := n]> f) j = subvol_at f j.
Proof.
  intros Hn Hk. unfold subvol_at in *.
  destruct (decide (k = j)) as [->|Hne].
  - rewrite lookup_insert_eq. destruct n; [done..|by destruct (Hn v)].
  - by rewrite lookup_insert_ne.
Qed.

Lemma makedirs_from_nil (f : gmap key node) (pre : key) :
  makedirs_from f pre [] = inr f.
Proof. reflexivity. Qed.

Lemma makedirs_from_cons (f : gmap key node) (pre : key) c rest :
  makedirs_from f pre (c :: rest)
  = match node_at f pre with
    | None => inl (ENOENT, f)
    | Some (File _) => inl (ENOTDIR, f)
    | Some _ =>
        match f !! (pre ++ [c]), rest with
        | None, _ => makedirs_from (<[pre ++ [c] := Dir]> f) (pre ++ [c]) rest
        | Some _, [] => inl (EEXIST, f)
        | Some _, _ => makedirs_from f (pre ++ [c]) rest
        end
    end.
Proof. reflexivity. Qed.

Lemma makedirs_from_subvols (rest pre : key) (f f' : gmap key node) :
  (∃ e, makedirs_from f pre rest = inl (e, f')) ∨ makedirs_from f pre rest = inr f' →
  ∀ j, subvol_at f' j = subvol_at f j.
Proof.
  revert pre f. induction rest as [|c rest IH]; intros pre f H j.
  - rewrite makedirs_from_nil in H.
    destruct H as [[e H]|H]; [done|]. by injection H as <-.
  - assert (Hstep :
      f' = f
      ∨ (f !! (pre ++ [c]) = None
         ∧ ((∃ e, makedirs_from (<[pre ++ [c] := Dir]> f) (pre ++ [c]) rest
                  = inl (e, f'))
            ∨ makedirs_from (<[pre ++ [c] := Dir]> f) (pre ++ [c]) rest = inr f'))
      ∨ ((∃ e, makedirs_from f (pre ++ [c]) rest = inl (e, f'))
         ∨ makedirs_from f (pre ++ [c]) rest = inr f')).
    { rewrite makedirs_from_cons in H.
      destruct (node_at f pre) as [[x| |v]|];
        [ left; destruct H as [[e H]|H]; by simplify_eq | | |
          left; destruct H as [[e H]|H]; by simplify_eq ];
        (destruct (f !! (pre ++ [c])) as [n|] eqn:Hc;
         [ destruct rest as [|c' rest'];
           [ left; destruct H as [[e H]|H]; by simplify_eq | by right; right ]
         | by right; left ]). }
    destruct Hstep as [->|[[Hc Hrec]|Hrec]].
    + done.
    + rewrite (IH _ _ Hrec).
      apply subvol_at_insert_plain; [done|]. unfold subvol_at. by rewrite Hc.
    + by apply (IH _ _ Hrec).
Qed.

Lemma trace_kept (c : syscall) :
  ¬ repositioning_call c → preserves subvolumes_kept (modify (add_trace c)).
Proof. intros H. apply preserves_modify. intros s. by apply kept_add_trace. Qed.

Lemma LOG_kept l msg : preserves subvolumes_kept (LOG l msg).
Proof. apply preserves_LOG. apply kept_add_log. Qed.

Lemma quiet_to_kept {A} (c : M A) : preserves quiet c → preserves subvolumes_kept c.
Proof. apply preserves_weaken, quiet_kept. Qed.

#[export] Hint Resolve LOG_kept : presdb.
#[export] Hint Extern 1 (preserves subvolumes_kept (modify (add_trace _))) =>
  apply trace_kept; cbn; tauto : presdb.
#[export] Hint Extern 2 (preserves subvolumes_kept _) =>
  apply quiet_to_kept; solve [auto with presdb] : presdb.

Lemma os_makedirs_kept p : preserves subvolumes_kept (os_makedirs p).
Proof.
  intros en s s'. unfold os_makedirs. munfold.
  destruct (fault en (Makedirs p)); cbn.
  { intros [= <-]. by (apply kept_add_trace; cbn; tauto). }
  destruct (resolve en p) as [|c k]; cbn.
  { intros [= <-]. by (apply kept_add_trace; cbn; tauto). }
  destruct (makedirs_from (fs s) [] (c :: k)) as [[e f]|f] eqn:Hmk; cbn;
    intros [= <-].
  - transitivity (add_trace (Makedirs p) s); [by (apply kept_add_trace; cbn; tauto)|].
    apply kept_set_fs. cbn. eapply makedirs_from_subvols. left. eauto.
  - transitivity (add_trace (Makedirs p) s); [by (apply kept_add_trace; cbn; tauto)|].
    apply kept_set_fs. cbn. eapply makedirs_from_subvols. right. eauto.
Qed.

Lemma os_system_mount_kept cmd target :
  preserves subvolumes_kept (os_system_mount cmd target).
Proof.
  intros en s s'. unfold os_system_mount. munfold.
  destruct (shell en cmd =? 0); cbn; intros [= <-].
  - split; try done. exists [System cmd]. split; [done|]. constructor; [|done].
    cbn. tauto.
  - by (apply kept_add_trace; cbn; tauto).
Qed.

Lemma write_file_kept p c : preserves subvolumes_kept (write_file p c).
Proof.
  intros en s s'. unfold write_file. munfold.
  destruct (fault en (WriteFile p c)); cbn.
  { intros [= <-]. by (apply kept_add_trace; cbn; tauto). }
  destruct (walk (fs s) (resolve en p)) as [e|[[x| |v]|]] eqn:Hw; cbn;
    intros [= <-]; try (by (apply kept_add_trace; cbn; tauto)).
  - transitivity (add_trace (WriteFile p c) s); [by (apply kept_add_trace; cbn; tauto)|].
    apply kept_set_fs. cbn. intros j.
    apply subvol_at_insert_plain; [done|].
    apply walk_inr in Hw as [_ Hn]. unfold subvol_at.
    destruct (resolve en p); [done|]. cbn in Hn. by rewrite <- Hn.
  - transitivity (add_trace (WriteFile p c) s); [by (apply kept_add_trace; cbn; tauto)|].
    apply kept_set_fs. cbn. intros j.
    apply subvol_at_insert_plain; [done|].
    apply walk_inr in Hw as [_ Hn]. unfold subvol_at.
    destruct (resolve en p); [done|]. cbn in Hn. by rewrite <- Hn.
Qed.

#[export] Hint Resolve os_makedirs_kept os_system_mount_kept write_file_kept : presdb.

Lemma ensure_dir_kept dirpath dry : preserves subvolumes_kept (ensure_dir dirpath dry).
Proof.
  unfold ensure_dir. pres.
  apply preserves_try_except; [apply _|pres|].
  intros e k Hk. destruct (is_OSError e); [|done]. injection Hk as <-. pres.
Qed.

#[export] Hint Resolve ensure_dir_kept : presdb.

Lemma mount_subvol_id5_kept target source dry :
  preserves subvolumes_kept (mount_subvol_id5 target source dry).
Proof. unfold mount_subvol_id5. pres. Qed.

Lemma createNextSubvolumeNumber_kept mountpoint cfg dest dry :
  preserves subvolumes_kept (createNextSubvolumeNumber mountpoint cfg dest dry).
Proof. unfold createNextSubvolumeNumber. pres. Qed.

Lemma generateXML_kept file_name num src_id dry :
  preserves subvolumes_kept (generateXML file_name num src_id dry).
Proof. unfold generateXML. pres. Qed.

Lemma getNextSnapshotNumber_kept fuel :
  preserves subvolumes_kept (getNextSnapshotNumber fuel).
Proof. pres. Qed.

(** ** Past the confirmation gate *)

Lemma config_get_inr cfg sec opt v en s :
  config_lookup cfg sec opt = inr v → config_get cfg sec opt en s = Ok v s.
Proof. intros H. unfold config_get. by rewrite H. Qed.

Lemma config_get_inl cfg sec opt e en s :
  config_lookup cfg sec opt = inl e → config_get cfg sec opt en s = Raise e s.
Proof. intros H. unfold config_get. by rewrite H. Qed.

Lemma main_past_gate fuel a en cfg mountpoint subvol_main src dev s :
  gate_passed a en cfg mountpoint subvol_main src dev →
  main fuel a en s
  = try_except (main_body fuel a cfg mountpoint subvol_main src dev)
               permission_denied en (add_trace (Input confirm_prompt) s).
Proof.
  intros [[Hcfg (mp & Hmp & ->) (sm & Hsm & ->) (ss & Hss & ->) Hdev] Hkb].
  unfold main, read_config, confirm, input. munfold.
  rewrite Hcfg.
  rewrite (config_get_inr _ _ _ _ _ _ Hmp). cbn.
  rewrite (config_get_inr _ _ _ _ _ _ Hsm). cbn.
  rewrite (config_get_inr _ _ _ _ _ _ Hss). cbn.
  destruct Hdev as [[Hd ->]|(d & Hd & ->)].
  - rewrite (config_get_inl _ _ _ _ _ _ Hd). cbn. rewrite Hkb. cbn. reflexivity.
  - rewrite (config_get_inr _ _ _ _ _ _ Hd). cbn. rewrite Hkb. cbn. reflexivity.
Qed.

Lemma guarded_final (R : state → state → Prop) `{!PreOrder R}
    (c : M unit) (en : env) (s : state) (e : exn) (s1 : state) :
  (∀ r s, R s (add_log r s)) →
  c en s = Raise e s1 → R s s1 →
  ∃ e' s', try_except c permission_denied en s = Raise e' s' ∧ R s s'
           ∧ (is_PermissionError e = true → e' = SystemExit 1)
           ∧ (is_PermissionError e = false → e' = e ∧ s' = s1).
Proof.
  intros Hlog Hc HR. unfold try_except, permission_denied. rewrite Hc.
  destruct (is_PermissionError e); munfold.
  - eexists _, _. split; [done|]. split; [|done].
    transitivity s1; [done|apply Hlog].
  - eexists _, _. split; [done|]. done.
Qed.

(** ** Failures before the repositioning *)

Lemma preserves_run {A} (R : state → state → Prop) (c : M A) en s o s' :
  c en s = o → preserves R c → final_state o = Some s' → R s s'.
Proof. intros <- Hc. apply Hc. Qed.

Ltac run_step H lem := eapply (preserves_run _ _ _ _ _ _ H); [apply lem | done].

Lemma preparation_fails_body fuel a cfg mountpoint subvol_main src dev en s e s' :
  preparation_fails fuel a cfg mountpoint dev en s e s' →
  main_body fuel a cfg mountpoint subvol_main src dev en s = Raise e s'
  ∧ subvolumes_kept s s'.
Proof.
  intros Hfail. unfold main_body. munfold.
  destruct Hfail as [Hm|s1 Hm Ha|s1 num s2 snaps Hm Ha Hc Hd
                    |s1 num s2 snaps s3 Hm Ha Hc Hd Hx];
    rewrite Hm; cbn.
  - split; [done|]. run_step Hm mount_subvol_id5_kept.
  - rewrite Ha. split; [done|].
    transitivity s1.
    + run_step Hm mount_subvol_id5_kept.
    + run_step Ha getNextSnapshotNumber_kept.
  - rewrite Ha. cbn. rewrite (config_get_inr _ _ _ _ _ _ Hc). cbn.
    rewrite Hd. split; [done|].
    transitivity s1; [run_step Hm mount_subvol_id5_kept|].
    transitivity s2; [run_step Ha getNextSnapshotNumber_kept|].
    run_step Hd createNextSubvolumeNumber_kept.
  - rewrite Ha. cbn. rewrite (config_get_inr _ _ _ _ _ _ Hc). cbn.
    rewrite Hd. cbn. rewrite Hx. split; [done|].
    transitivity s1; [run_step Hm mount_subvol_id5_kept|].
    transitivity s2; [run_step Ha getNextSnapshotNumber_kept|].
    transitivity s3;
      [run_step Hd createNextSubvolumeNumber_kept|].
    run_step Hx generateXML_kept.
Qed.

(** C2: when the mount precondition, the allocator, the creation of the
    snapshot directory or the reading or writing of the descriptor raises,
    [main] ends with an exception without having called [rollback]: none of
    the calls rename, create-snapshot and set-default is in the trace, every
    subvolume (the main one among them) is where it was, and the default
    subvolume is the same. *)
Theorem preparation_failure_leaves_subvolumes
    (fuel : nat) (a : args) (en : env) (cfg : config)
    (mountpoint subvol_main src : Path) (dev : option string)
    (s : state) (e : exn) (s1 : state) :
  gate_passed a en cfg mountpoint subvol_main src dev →
  preparation_fails fuel a cfg mountpoint dev en
                    (add_trace (Input confirm_prompt) s) e s1 →
  ∃ e' s',
    main fuel a en s = Raise e' s'
    ∧ subvolumes_kept s s'
    ∧ subvol_at (fs s') (resolve en (Pathlib.str subvol_main))
      = subvol_at (fs s) (resolve en (Pathlib.str subvol_main))
    ∧ Forall (λ c, ¬ repositioning_call c) (drop (length (trace s)) (trace s')).
Proof.
  intros Hgate Hfail.
  destruct (preparation_fails_body _ _ _ _ subvol_main src _ _ _ _ _ Hfail)
    as [Hbody Hkept].
  rewrite (main_past_gate _ _ _ _ _ _ _ _ _ Hgate).
  destruct (guarded_final subvolumes_kept _ _ _ _ _ kept_add_log Hbody Hkept)
    as (e' & s' & Hmain & Hkept' & _).
  exists e', s'. split; [done|].
  assert (Hall : subvolumes_kept s s').
  { transitivity (add_trace (Input confirm_prompt) s); [|done].
    apply kept_add_trace. cbn. tauto. }
  split; [done|]. split; [apply Hall|].
  destruct Hall as [_ _ _ (t & -> & Ht)].
  by rewrite drop_app_length.
Qed.

Lemma scenario_gate (kb_ok : keyboard) flt st listing (a : args) :
  kb_ok = Line "CONFIRM" →
  gate_passed a (Scenario.world kb_ok flt st listing) Scenario.cfg0
              Scenario.mountpoint Scenario.subvol_main
              (Scenario.mountpoint </> "@snapshots" </> snap_id a </> "snapshot")
              (Some "/dev/sda1").
Proof.
  intros ->. split; [split; cbn|reflexivity].
  - reflexivity.
  - by eexists.
  - by eexists.
  - by eexists.
  - right. by eexists.
Qed.

Lemma preparation_failure_leaves_subvolumes_witness :
  ∃ e' s',
    main 10 Scenario.real_run Scenario.mount_refused Scenario.st0 = Raise e' s'
    ∧ subvolumes_kept Scenario.st0 s'.
Proof.
  set (en := Scenario.mount_refused).
  set (s1 := match mount_subvol_id5 Scenario.mountpoint (Some "/dev/sda1") false en
                     (add_trace (Input confirm_prompt) Scenario.st0) with
             | Raise _ s => s
             | _ => Scenario.st0
             end).
  assert (Hfail : preparation_fails 10 Scenario.real_run Scenario.cfg0
                    Scenario.mountpoint (Some "/dev/sda1") en
                    (add_trace (Input confirm_prompt) Scenario.st0)
                    (OSError None) s1).
  { apply mount_fails. vm_compute. reflexivity. }
  destruct (preparation_failure_leaves_subvolumes
              10 Scenario.real_run en Scenario.cfg0 Scenario.mountpoint
              Scenario.subvol_main
              (Scenario.mountpoint </> "@snapshots" </> "5" </> "snapshot")
              (Some "/dev/sda1") Scenario.st0 (OSError None) s1
              (scenario_gate _ _ _ _ Scenario.real_run eq_refl) Hfail)
    as (e' & s' & Hmain & Hkept & _).
  exists e', s'. split; [exact Hmain | exact Hkept].
Defined.

(** ** Dry-run mode *)

Lemma ensure_dir_dry (dirpath : Path) (en : env) (s : state) :
  ∃ s', ensure_dir dirpath true en s = Ok tt s'
        ∧ (log s' = log s
           ∨ log s' = log s ++ [(INFO, "mkdir -p '" +:+ Pathlib.str dirpath +:+ "'")]).
Proof.
  unfold ensure_dir. munfold. rewrite os_path_isdir_eq. cbn.
  destruct (match walk (fs s) (resolve en (Pathlib.str dirpath)) with
            | inr (Some n) => dirlike n
            | _ => false
            end); cbn; eexists; (split; [done|]); cbn; auto.
Qed.

Lemma mount_subvol_id5_dry (target : Path) (source : option string)
    (en : env) (s : state) :
  ∃ s', mount_subvol_id5 target source true en s = Ok tt s'.
Proof.
  unfold mount_subvol_id5. munfold.
  destruct (ensure_dir_dry target en s) as (s1 & -> & _). cbn.
  unfold os_path_ismount. munfold.
  destruct (match walk (fs s1) (resolve en (Pathlib.str target)) with
            | inr (Some n) =>
                dirlike n && bool_decide (resolve en (Pathlib.str target) ∈ mounts s1)
            | _ => false
            end); cbn; by eexists.
Qed.

Lemma generateXML_dry (file_name : Path) (num src_id date : string)
    (en : env) (s s1 : state) :
  source_snapshot_date src_id en s = Ok date s1 →
  generateXML file_name num src_id true en s
  = Ok tt (add_log (INFO, "Writing info.xml to " +:+ Pathlib.str file_name) s1).
Proof. intros H. unfold generateXML. munfold. by rewrite H. Qed.

Lemma rollback_dry (main new src : Path) (dev : option string) (en : env) (s : state) :
  rollback main new src dev true en s
  = Ok tt
      (add_log (INFO, "[DRY-RUN MODE] Rollback to " +:+ Pathlib.str src
                      +:+ " complete. Reboot to finish")
         (add_log (INFO, "btrfs subvolume set-default " +:+ Pathlib.str main)
            (add_log (INFO, "btrfs subvolume snapshot " +:+ Pathlib.str src
                            +:+ " " +:+ Pathlib.str main)
               (add_log (INFO, "mv " +:+ Pathlib.str main +:+ " "
                               +:+ Pathlib.str new) s)))).
Proof. reflexivity. Qed.




(** ** How the process ends *)

Lemma config_lookup_inl cfg sec opt e :
  config_lookup cfg sec opt = inl e → e = NoSectionError ∨ e = NoOptionError.
Proof.
  unfold config_lookup.
  destruct (find _ cfg) as [[? opts]|]; [|intros [= <-]; auto].
  destruct (find _ opts) as [[? v]|]; [done|intros [= <-]; auto].
Qed.

Lemma main_config_error fuel a en s opt e :
  opt ∈ ["mountpoint"; "subvol_main"; "subvol_snapshots"] →
  config_lookup (config_of en (config_file a)) "root" opt = inl e →
  exit_status (main fuel a en s) = Some 1.
Proof.
  intros Hopt Hlook. unfold main, read_config. munfold.
  set (cfg := config_of en (config_file a)) in *.
  unfold config_get.
  destruct (config_lookup cfg "root" "mountpoint") as [e1|v1] eqn:H1; cbn.
  { by apply config_lookup_inl in H1 as [-> | ->]. }
  destruct (config_lookup cfg "root" "subvol_main") as [e2|v2] eqn:H2; cbn.
  { by apply config_lookup_inl in H2 as [-> | ->]. }
  destruct (config_lookup cfg "root" "subvol_snapshots") as [e3|v3] eqn:H3; cbn.
  { by apply config_lookup_inl in H3 as [-> | ->]. }
  exfalso.
  repeat (apply elem_of_cons in Hopt as [->|Hopt]; [congruence|]).
  by apply elem_of_nil in Hopt.
Qed.

Lemma main_at_prompt fuel a en cfg mountpoint subvol_main src dev s :
  configured a en cfg mountpoint subvol_main src dev →
  main fuel a en s
  = (confirm;;
     try_except (main_body fuel a cfg mountpoint subvol_main src dev)
                permission_denied) en s.
Proof.
  intros [Hcfg (mp & Hmp & ->) (sm & Hsm & ->) (ss & Hss & ->) Hdev].
  unfold main, read_config. munfold.
  rewrite Hcfg.
  rewrite (config_get_inr _ _ _ _ _ _ Hmp). cbn.
  rewrite (config_get_inr _ _ _ _ _ _ Hsm). cbn.
  rewrite (config_get_inr _ _ _ _ _ _ Hss). cbn.
  destruct Hdev as [[Hd ->]|(d & Hd & ->)].
  - by rewrite (config_get_inl _ _ _ _ _ _ Hd).
  - by rewrite (config_get_inr _ _ _ _ _ _ Hd).
Qed.

Lemma main_interrupted fuel a en cfg mountpoint subvol_main src dev s :
  configured a en cfg mountpoint subvol_main src dev →
  stdin en = CtrlC →
  main fuel a en s = Raise (SystemExit 1) (add_trace (Input confirm_prompt) s).
Proof.
  intros Hc Hkb. rewrite (main_at_prompt _ _ _ _ _ _ _ _ _ Hc).
  unfold confirm, input. munfold. by rewrite Hkb.
Qed.

Lemma main_bad_confirmation fuel a en cfg mountpoint subvol_main src dev s w :
  configured a en cfg mountpoint subvol_main src dev →
  stdin en = Line w → w ≠ confirm_typed_value →
  main fuel a en s
  = Raise (SystemExit 0)
          (add_log (CRITICAL, "Bad confirmation, exiting...")
                   (add_trace (Input confirm_prompt) s)).
Proof.
  intros Hc Hkb Hw. rewrite (main_at_prompt _ _ _ _ _ _ _ _ _ Hc).
  unfold confirm, input. munfold. rewrite Hkb. cbn.
  apply String.eqb_neq in Hw. by rewrite Hw.
Qed.

Lemma os_makedirs_Raise p en s e s' :
  os_makedirs p en s = Raise e s' → ∃ n, e = OSError n.
Proof.
  unfold os_makedirs. munfold.
  destruct (fault en (Makedirs p)); cbn; [intros [= <- _]; by eexists|].
  destruct (resolve en p); cbn; [intros [= <- _]; by eexists|].
  destruct (makedirs_from _ _ _) as [[??]|?]; cbn; [|done].
  intros [= <- _]; by eexists.
Qed.

Lemma ensure_dir_Raise dirpath dry en s e s' :
  ensure_dir dirpath dry en s = Raise e s' → ∃ n, e = OSError n.
Proof.
  unfold ensure_dir. munfold. rewrite os_path_isdir_eq. cbn.
  destruct (match walk _ _ with inr (Some n) => dirlike n | _ => false end);
    cbn; [done|].
  destruct dry; cbn; [done|].
  destruct (os_makedirs _ en _) as [[] s1|e1 s1|] eqn:Hmk; [done| |done].
  apply os_makedirs_Raise in Hmk as [n ->]. cbn. intros [= <- _]. by eexists.
Qed.

Lemma mount_subvol_id5_Raise target source dry en s e s' :
  mount_subvol_id5 target source dry en s = Raise e s' → ∃ n, e = OSError n.
Proof.
  unfold mount_subvol_id5. munfold.
  destruct (ensure_dir target dry en s) as [[] s1|e1 s1|] eqn:Hdir; [| |done].
  - unfold os_path_ismount, os_system_mount. munfold.
    destruct (match walk _ _ with inr (Some n) => _ | _ => false end); cbn; [done|].
    destruct dry; cbn; [done|].
    destruct (shell en _ =? 0) eqn:Hsh; cbn; rewrite Hsh; cbn; [done|].
    intros [= <- _]. by eexists.
  - intros [= <- _]. by eapply ensure_dir_Raise.
Qed.

Lemma exit_status_guarded (c : M unit) en s e s' :
  c en s = Raise e s' → (∃ n, e = OSError n) →
  exit_status (try_except c permission_denied en s) = Some 1.
Proof.
  intros Hc [n ->]. unfold try_except, permission_denied. rewrite Hc.
  destruct (is_PermissionError (OSError n)); reflexivity.
Qed.

Lemma main_prepared fuel a en cfg mountpoint subvol_main src dev s dst s4 :
  gate_passed a en cfg mountpoint subvol_main src dev →
  prepared fuel a cfg mountpoint dev en (add_trace (Input confirm_prompt) s) dst s4 →
  main fuel a en s
  = try_except (rollback subvol_main dst src dev (dry_run a))
               permission_denied en s4.
Proof.
  intros Hgate (s1 & num & s2 & snaps & s3 & Hm & Ha & Hc & Hd & Hx & ->).
  rewrite (main_past_gate _ _ _ _ _ _ _ _ _ Hgate).
  unfold main_body. munfold.
  rewrite Hm. cbn. rewrite Ha. cbn.
  rewrite (config_get_inr _ _ _ _ _ _ Hc). cbn.
  rewrite Hd. cbn. by rewrite Hx.
Qed.

Lemma rollback_missing_main (main dst src : Path) dev en s s' :
  os_rename (Pathlib.str main) (Pathlib.str dst) en s
  = Raise (OSError (Some ENOENT)) s' →
  rollback main dst src dev false en s
  = Ok tt (add_log (CRITICAL,
                    "Missing " +:+ Pathlib.str main +:+ ": Is "
                    +:+ default "None" dev
                    +:+ " mounted with the option subvolid=5?") s').
Proof. intros H. unfold rollback, reposition. munfold. by rewrite H. Qed.

Lemma rollback_committed (main dst src : Path) dev dry en s s' :
  reposition main dst src dry en s = Ok tt s' →
  rollback main dst src dev dry en s = Ok tt s'.
Proof. intros H. unfold rollback, try_except. by rewrite H. Qed.

(** C8, as the code has it: the process ends with status 1 on a
    configuration error (an exception nobody catches), on a permission
    error inside the second [try] ([exit(1)]), on a failure of the mount
    precondition and on an interrupt at the prompt ([sys.exit(1)]); it ends
    with status 0 on a committed rollback, on a confirmation other than the
    expected word ([sys.exit(0)]), and also when the main subvolume is
    missing, because [rollback] catches that error and only logs it. *)
Theorem exit_statuses (fuel : nat) (a : args) (en : env) (s : state) :
  let cfg := config_of en (config_file a) in
  let s1 := add_trace (Input confirm_prompt) s in
  (∀ opt e,
     opt ∈ ["mountpoint"; "subvol_main"; "subvol_snapshots"] →
     config_lookup cfg "root" opt = inl e →
     exit_status (main fuel a en s) = Some 1)
  ∧ (∀ mountpoint subvol_main src dev,
       configured a en cfg mountpoint subvol_main src dev →
       (stdin en = CtrlC → exit_status (main fuel a en s) = Some 1)
       ∧ (∀ w, stdin en = Line w → w ≠ confirm_typed_value →
               exit_status (main fuel a en s) = Some 0)
       ∧ (stdin en = Line confirm_typed_value →
          (∀ e s',
             main_body fuel a cfg mountpoint subvol_main src dev en s1
             = Raise e s' →
             is_PermissionError e = true →
             exit_status (main fuel a en s) = Some 1)
          ∧ (∀ e s',
               mount_subvol_id5 mountpoint dev (dry_run a) en s1 = Raise e s' →
               exit_status (main fuel a en s) = Some 1)
          ∧ (∀ dst s4 s5,
               prepared fuel a cfg mountpoint dev en s1 dst s4 →
               reposition subvol_main dst src (dry_run a) en s4 = Ok tt s5 →
               exit_status (main fuel a en s) = Some 0)
          ∧ (∀ dst s4 s5,
               dry_run a = false →
               prepared fuel a cfg mountpoint dev en s1 dst s4 →
               os_rename (Pathlib.str subvol_main) (Pathlib.str dst) en s4
               = Raise (OSError (Some ENOENT)) s5 →
               exit_status (main fuel a en s) = Some 0))).
Proof.
  intros cfg s1. split.
  { intros opt e. apply main_config_error. }
  intros mountpoint subvol_main src dev Hcfg.
  split; [intros Hkb; by erewrite main_interrupted|].
  split; [intros w Hkb Hw; by erewrite main_bad_confirmation|].
  intros Hkb.
  assert (Hgate : gate_passed a en cfg mountpoint subvol_main src dev) by done.
  split; [|split; [|split]].
  - intros e s' Hbody Hperm.
    rewrite (main_past_gate _ _ _ _ _ _ _ _ _ Hgate).
    unfold try_except, permission_denied. fold s1. rewrite Hbody, Hperm.
    reflexivity.
  - intros e s' Hmount.
    rewrite (main_past_gate _ _ _ _ _ _ _ _ _ Hgate). fold s1.
    eapply exit_status_guarded; [|by eapply mount_subvol_id5_Raise].
    unfold main_body. munfold. by rewrite Hmount.
  - intros dst s4 s5 Hprep Hrep.
    rewrite (main_prepared _ _ _ _ _ _ _ _ _ _ _ Hgate Hprep).
    unfold try_except at 1.
    by rewrite (rollback_committed _ _ _ _ _ _ _ _ Hrep).
  - intros dst s4 s5 Hreal Hprep Hren.
    rewrite (main_prepared _ _ _ _ _ _ _ _ _ _ _ Hgate Hprep).
    unfold try_except at 1. rewrite Hreal.
    by rewrite (rollback_missing_main _ _ _ _ _ _ _ Hren).
Qed.

Lemma scenario_configured kb flt st listing (a : args) :
  configured a (Scenario.world kb flt st listing) Scenario.cfg0
             Scenario.mountpoint Scenario.subvol_main
             (Scenario.mountpoint </> "@snapshots" </> snap_id a </> "snapshot")
             (Some "/dev/sda1").
Proof.
  split; cbn.
  - reflexivity.
  - by eexists.
  - by eexists.
  - by eexists.
  - right. by eexists.
Qed.

Lemma exit_statuses_witness :
  exit_status (main 10 Scenario.real_run
                 (Scenario.world CtrlC Scenario.no_fault 0 ["3"; "5"; "7"])
                 Scenario.st0) = Some 1
  ∧ exit_status (main 10 Scenario.real_run
                   (Scenario.world (Line "yes") Scenario.no_fault 0 ["3"; "5"; "7"])
                   Scenario.st0) = Some 0
  ∧ exit_status (main 10 Scenario.real_run Scenario.mount_refused Scenario.st0)
    = Some 1.
Proof.
  split; [|split].
  - apply (proj1 (proj2 (exit_statuses 10 Scenario.real_run
                           (Scenario.world CtrlC Scenario.no_fault 0 ["3"; "5"; "7"])
                           Scenario.st0)
                        _ _ _ _ (scenario_configured _ _ _ _ _))).
    reflexivity.
  - apply (proj1 (proj2 (proj2 (exit_statuses 10 Scenario.real_run
                           (Scenario.world (Line "yes") Scenario.no_fault 0
                                           ["3"; "5"; "7"])
                           Scenario.st0)
                        _ _ _ _ (scenario_configured _ _ _ _ _))) "yes").
    + reflexivity.
    + discriminate.
  - eapply (proj1 (proj2 (proj2 (proj2 (proj2
              (exit_statuses 10 Scenario.real_run Scenario.mount_refused
                             Scenario.st0)
              _ _ _ _ (scenario_configured _ _ _ _ _))) eq_refl))
              (OSError None)).
    vm_compute. reflexivity.
Defined.

(** C8 as stated fails on the missing main subvolume: with the volume
    mounted without [subvolid=5] there is no [@] under the mount point, the
    rename raises [FileNotFoundError], [rollback] logs it at the highest
    level and returns, and the process ends with status 0.  A wrong
    confirmation word ends with status 0 as well. *)
Lemma missing_main_exits_zero :
  (∃ s', main 10 Scenario.real_run Scenario.calm Scenario.st_wrong_mount = Ok tt s'
         ∧ last (log s')
           = Some (CRITICAL,
                   "Missing /btrfsroot/@: Is /dev/sda1 mounted with the option subvolid=5?")
         ∧ last (trace s')
           = Some (Rename "/btrfsroot/@" "/btrfsroot/@snapshots/8/snapshot"))
  ∧ exit_status (main 10 Scenario.real_run Scenario.calm Scenario.st_wrong_mount)
    = Some 0
  ∧ exit_status (main 10 Scenario.real_run
                   (Scenario.world (Line "no") Scenario.no_fault 0 ["3"; "5"; "7"])
                   Scenario.st0)
    = Some 0.
Proof.
  split; [|split].
  - eexists. split; [vm_compute; reflexivity|]. split; reflexivity.
  - vm_compute. reflexivity.
  - vm_compute. reflexivity.
Qed.

(** ** Failures that [rollback] swallows *)

Lemma restore_old_root_Raise (main new : Path) en s e s' :
  restore_old_root main new false en s = Raise e s' → ∃ n, e = OSError n.
Proof.
  unfold restore_old_root. munfold. rewrite os_path_isdir_eq. cbn.
  destruct (match walk _ _ with inr (Some n) => dirlike n | _ => false end);
    cbn; [done|].
  intros H. apply os_rename_Raise in H as [[n ->] _]. by eexists.
Qed.

(** C10, as the code has it: in a real run in which the repositioning
    raises a btrfs error or [FileNotFoundError], [rollback] catches the
    exception; when its handler comes to an end (no rename back is needed,
    or the rename back succeeds) [rollback] returns and the process ends
    with status 0.  An exception raised by the rename back is not caught in
    [rollback]: the process then ends with status 1. *)
Theorem swallowed_failures_exit_zero
    (fuel : nat) (a : args) (en : env) (cfg : config)
    (mountpoint subvol_main src : Path) (dev : option string)
    (s : state) (dst : Path) (s4 : state) (e : exn) (s5 : state) :
  dry_run a = false →
  gate_passed a en cfg mountpoint subvol_main src dev →
  prepared fuel a cfg mountpoint dev en (add_trace (Input confirm_prompt) s) dst s4 →
  reposition subvol_main dst src false en s4 = Raise e s5 →
  is_FileNotFoundError e = true ∨ is_BtrfsUtilError e = true →
  ((is_BtrfsUtilError e = true →
    ∃ s6, restore_old_root subvol_main dst false en s5 = Ok tt s6) →
   (∃ s', rollback subvol_main dst src dev false en s4 = Ok tt s')
   ∧ exit_status (main fuel a en s) = Some 0)
  ∧ (∀ e' s6,
       is_BtrfsUtilError e = true →
       restore_old_root subvol_main dst false en s5 = Raise e' s6 →
       rollback subvol_main dst src dev false en s4 = Raise e' s6
       ∧ exit_status (main fuel a en s) = Some 1).
Proof.
  intros Hreal Hgate Hprep Hrep Hclass.
  rewrite (main_prepared _ _ _ _ _ _ _ _ _ _ _ Hgate Hprep). rewrite Hreal.
  assert (Hroll : rollback subvol_main dst src dev false en s4
                  = if is_FileNotFoundError e then
                      LOG CRITICAL
                        ("Missing " +:+ Pathlib.str subvol_main +:+ ": Is "
                         +:+ default "None" dev
                         +:+ " mounted with the option subvolid=5?") en s5
                    else restore_old_root subvol_main dst false en s5).
  { unfold rollback, try_except. rewrite Hrep.
    destruct (is_FileNotFoundError e) eqn:Hfnf; [done|].
    destruct Hclass as [?| ->]; done. }
  split.
  - intros Hdone. unfold try_except at 1. rewrite Hroll.
    destruct (is_FileNotFoundError e) eqn:Hfnf.
    + split; [by eexists|done].
    + destruct Hclass as [?|Hb]; [done|].
      destruct (Hdone Hb) as [s6 ->]. split; [by eexists|done].
  - intros e' s6 Hb Hraise.
    assert (Hfnf : is_FileNotFoundError e = false) by by destruct e as [[[]|]| | | | | | | | | |].
    rewrite Hfnf in Hroll. rewrite Hraise in Hroll. split; [done|].
    eapply exit_status_guarded; [exact Hroll|].
    by eapply restore_old_root_Raise.
Qed.

Lemma swallowed_failures_exit_zero_witness :
  let en := Scenario.world (Line "CONFIRM") Scenario.snapshot_fails 0 ["3"; "5"; "7"] in
  exit_status (main 10 Scenario.real_run en Scenario.st0) = Some 0.
Proof.
  intros en.
  edestruct (swallowed_failures_exit_zero 10 Scenario.real_run en Scenario.cfg0
               Scenario.mountpoint Scenario.subvol_main
               (Scenario.mountpoint </> "@snapshots" </> "5" </> "snapshot")
               (Some "/dev/sda1") Scenario.st0 Scenario.subvol_main_dst)
    as [Hzero _].
  - reflexivity.
  - apply (scenario_gate _ _ _ _ Scenario.real_run eq_refl).
  - unfold prepared. eexists _, _, _, _, _.
    split; [vm_compute; reflexivity|].
    split; [vm_compute; reflexivity|].
    split; [vm_compute; reflexivity|].
    split; [vm_compute; reflexivity|].
    split; [vm_compute; reflexivity|].
    vm_compute; reflexivity.
  - vm_compute. reflexivity.
  - right. reflexivity.
  - apply Hzero. intros _. eexists. vm_compute. reflexivity.
Defined.

(** C10 as stated fails when the rename back itself raises.  Here the
    snapshot fails with a btrfs error and the file system has turned
    read-only by the time the handler moves the old root back: the rename
    raises [OSError], nothing catches it, and the process ends with
    status 1. *)
Lemma compensation_failure_exits_one :
  let en := Scenario.world (Line "CONFIRM") Scenario.turned_read_only 0
                           ["3"; "5"; "7"] in
  (∃ s4 s5,
     prepared 10 Scenario.real_run Scenario.cfg0 Scenario.mountpoint
              (Some "/dev/sda1") en
              (add_trace (Input confirm_prompt) Scenario.st0)
              Scenario.subvol_main_dst s4
     ∧ reposition Scenario.subvol_main Scenario.subvol_main_dst
                  Scenario.subvol_rollback_src false en s4
       = Raise (BtrfsUtilError EIO) s5)
  ∧ (∃ s', main 10 Scenario.real_run en Scenario.st0
           = Raise (OSError (Some EROFS)) s'
           ∧ last (trace s')
             = Some (Rename "/btrfsroot/@snapshots/8/snapshot" "/btrfsroot/@"))
  ∧ exit_status (main 10 Scenario.real_run en Scenario.st0) = Some 1.
Proof.
  intros en. split; [|split].
  - unfold prepared. eexists _, _. split.
    + eexists _, _, _, _, _.
      split; [vm_compute; reflexivity|].
      split; [vm_compute; reflexivity|].
      split; [vm_compute; reflexivity|].
      split; [vm_compute; reflexivity|].
      split; [vm_compute; reflexivity|].
      vm_compute; reflexivity.
    + vm_compute. reflexivity.
  - eexists. split; [vm_compute; reflexivity|]. reflexivity.
  - vm_compute. reflexivity.
Qed.

(** ** The calls a computation makes *)

Global Instance traced_preorder (P : syscall → Prop) : PreOrder (traced P).
Proof.
  split.
  - intros s. exists []. by rewrite app_nil_r.
  - intros s1 s2 s3 (t1 & Ht1 & Hp1) (t2 & Ht2 & Hp2).
    exists (t1 ++ t2). split; [|by apply Forall_app].
    rewrite Ht2, Ht1. by rewrite <- app_assoc.
Qed.

Lemma traced_weaken (P Q : syscall → Prop) (s s' : state) :
  (∀ c, P c → Q c) → traced P s s' → traced Q s s'.
Proof.
  intros H (t & Ht & Hp). exists t. split; [done|].
  eapply Forall_impl; [exact Hp|exact H].
Qed.

Lemma traced_same (P : syscall → Prop) (s s' : state) :
  trace s' = trace s → traced P s s'.
Proof. intros H. exists []. by rewrite app_nil_r. Qed.

Lemma traced_single (P : syscall → Prop) (c : syscall) (s s' : state) :
  P c → trace s' = trace s ++ [c] → traced P s s'.
Proof. intros Hc H. exists [c]. split; [done|]. by constructor. Qed.

Lemma traced_add_log P (r : logrec) (s : state) : traced P s (add_log r s).
Proof. by apply traced_same. Qed.

Lemma trace_traced P (c : syscall) :
  P c → preserves (traced P) (modify (add_trace c)).
Proof. intros H. apply preserves_modify. intros s. by eapply traced_single. Qed.

Lemma LOG_traced P l msg : preserves (traced P) (LOG l msg).
Proof. apply preserves_LOG. apply traced_add_log. Qed.

Lemma log_traced P (r : logrec) : preserves (traced P) (modify (add_log r)).
Proof. apply preserves_modify. intros s. apply traced_add_log. Qed.

#[export] Hint Resolve LOG_traced log_traced : presdb.
#[export] Hint Extern 1 (preserves (traced not_write) (modify (add_trace _))) =>
  apply trace_traced; intros ? ?; discriminate : presdb.

Lemma os_path_isdir_traced p : preserves (traced not_write) (os_path_isdir p).
Proof. unfold os_path_isdir. pres. Qed.

Lemma os_path_ismount_traced p : preserves (traced not_write) (os_path_ismount p).
Proof. unfold os_path_ismount. pres. Qed.

Lemma os_listdir_traced p : preserves (traced not_write) (os_listdir p).
Proof. unfold os_listdir. pres. Qed.

Lemma minidom_parse_traced p : preserves (traced not_write) (minidom_parse p).
Proof. unfold minidom_parse. pres. Qed.

Lemma input_traced prompt : preserves (traced not_write) (input prompt).
Proof. unfold input. pres. Qed.

Ltac traced1 :=
  eapply traced_single; swap 1 2;
  [first [eassumption | cbn; reflexivity] | intros ? ?; discriminate].

Lemma os_makedirs_traced p : preserves (traced not_write) (os_makedirs p).
Proof.
  intros en s s'. unfold os_makedirs. munfold.
  destruct (fault en (Makedirs p)); cbn.
  { intros [= <-]. traced1. }
  destruct (resolve en p) as [|c k]; cbn.
  { intros [= <-]. traced1. }
  destruct (makedirs_from (fs s) [] (c :: k)) as [[e f]|f]; cbn;
    intros [= <-]; traced1.
Qed.

Lemma os_system_mount_traced cmd target :
  preserves (traced not_write) (os_system_mount cmd target).
Proof.
  intros en s s'. unfold os_system_mount. munfold.
  destruct (shell en cmd =? 0); cbn; intros [= <-]; traced1.
Qed.

Lemma os_rename_traced a b : preserves (traced not_write) (os_rename a b).
Proof.
  intros en s s' H.
  destruct (os_rename_final a b en s) as (s1 & Hfin & Htr & _).
  rewrite Hfin in H. injection H as <-. traced1.
Qed.

Lemma create_snapshot_traced a b :
  preserves (traced not_write) (btrfsutil_create_snapshot a b).
Proof.
  intros en s s'.
  destruct (btrfsutil_create_snapshot a b en s) as [[] s1|e s1|] eqn:H; cbn;
    [| |done]; intros [= <-].
  - apply create_snapshot_Ok in H as (_ & _ & Htr & _). traced1.
  - apply create_snapshot_Raise in H as [_ ->]. traced1.
Qed.

Lemma set_default_traced p :
  preserves (traced not_write) (btrfsutil_set_default_subvolume p).
Proof.
  intros en s s'.
  destruct (btrfsutil_set_default_subvolume p en s) as [[] s1|e s1|] eqn:H; cbn;
    [| |done]; intros [= <-].
  - apply set_default_Ok in H as (_ & Htr & _). traced1.
  - apply set_default_Raise in H as [_ ->]. traced1.
Qed.

#[export] Hint Resolve os_path_isdir_traced os_path_ismount_traced
  os_listdir_traced minidom_parse_traced input_traced os_makedirs_traced
  os_system_mount_traced os_rename_traced create_snapshot_traced
  set_default_traced : presdb.

Lemma ensure_dir_traced dirpath dry :
  preserves (traced not_write) (ensure_dir dirpath dry).
Proof.
  unfold ensure_dir. pres.
  apply preserves_try_except; [apply _|pres|].
  intros e k Hk. destruct (is_OSError e); [|done]. injection Hk as <-. pres.
Qed.

#[export] Hint Resolve ensure_dir_traced : presdb.

Lemma mount_subvol_id5_traced target source dry :
  preserves (traced not_write) (mount_subvol_id5 target source dry).
Proof. unfold mount_subvol_id5. pres. Qed.

Lemma getNextSnapshotNumber_traced fuel :
  preserves (traced not_write) (getNextSnapshotNumber fuel).
Proof.
  unfold getNextSnapshotNumber.
  apply preserves_bind; [apply _|apply os_listdir_traced|]. intros l.
  destruct (next_number Py.int fuel l) as [[num records]|]; [|apply preserves_diverge].
  apply preserves_bind; [apply _| |intros _; apply preserves_mret; apply _].
  apply preserves_modify. intros s. by apply traced_same.
Qed.

Lemma createNextSubvolumeNumber_traced mountpoint cfg dest dry :
  preserves (traced not_write) (createNextSubvolumeNumber mountpoint cfg dest dry).
Proof. unfold createNextSubvolumeNumber. pres. Qed.

Lemma source_snapshot_date_traced src_id :
  preserves (traced not_write) (source_snapshot_date src_id).
Proof. unfold source_snapshot_date. pres. Qed.

Lemma rollback_traced main new src dev dry :
  preserves (traced not_write) (rollback main new src dev dry).
Proof.
  unfold rollback.
  apply preserves_try_except; [apply _|unfold reposition; pres|].
  intros e k Hk.
  destruct (is_FileNotFoundError e); [injection Hk as <-; pres|].
  destruct (is_BtrfsUtilError e); [|done].
  injection Hk as <-. unfold restore_old_root. pres.
Qed.

Lemma confirm_traced : preserves (traced not_write) confirm.
Proof.
  unfold confirm.
  apply preserves_try_except; [apply _| |].
  - unfold sys_exit. pres.
  - intros e k Hk. destruct (is_KeyboardInterrupt e); [|done].
    injection Hk as <-. unfold sys_exit. pres.
Qed.

(** ** The number the allocator returns *)

Lemma loop_body_allocated int_of l s :
  subvol_main_snapshot_number s = "" ∨ allocated (subvol_main_snapshot_number s) →
  subvol_main_snapshot_number (loop_body int_of l s) = ""
  ∨ allocated (subvol_main_snapshot_number (loop_body int_of l s)).
Proof.
  intros H. unfold loop_body.
  destruct (Py.getitem l (- snap_id_offset s) ≫= int_of) as [n|]; cbn.
  - destruct (snapshot_dir_length s =? 0); cbn; right; [by left|right; by eexists].
  - destruct (snapshot_dir_length s - 1 =? 0); cbn; [right; by left|done].
Qed.

Lemma while_loop_allocated int_of fuel l s s' :
  subvol_main_snapshot_number s = "" ∨ allocated (subvol_main_snapshot_number s) →
  while_loop int_of fuel l s = Some s' →
  allocated (subvol_main_snapshot_number s').
Proof.
  revert s. induction fuel as [|fuel IH]; intros s Hs; cbn.
  - destruct (String.eqb_spec (subvol_main_snapshot_number s) ""); [done|].
    intros [= <-]. by destruct Hs.
  - destruct (String.eqb_spec (subvol_main_snapshot_number s) "").
    + apply IH. by apply loop_body_allocated.
    + intros [= <-]. by destruct Hs.
Qed.

Lemma next_number_allocated int_of fuel l num records :
  next_number int_of fuel l = Some (num, records) → allocated num.
Proof.
  unfold next_number.
  destruct (while_loop int_of fuel l (loop_init l)) as [s'|] eqn:H; [|done].
  cbn. intros [= <- _]. eapply while_loop_allocated; [|exact H]. by left.
Qed.

Lemma getNextSnapshotNumber_allocated fuel en s num s' :
  getNextSnapshotNumber fuel en s = Ok num s' → allocated num.
Proof.
  unfold getNextSnapshotNumber. munfold.
  destruct (os_listdir "/.snapshots" en s) as [l s1|e s1|]; [|done..].
  destruct (next_number Py.int fuel l) as [[n r]|] eqn:H; cbn; [|done].
  intros [= <- _]. by eapply next_number_allocated.
Qed.

(** ** The descriptor that is written *)

Lemma truediv_single (p : Path) (c : string) :
  Pathlib.parse c = Pathlib.MkPath false [c] →
  p </> c = Pathlib.MkPath (Pathlib.anchored p) (Pathlib.parts p ++ [c]).
Proof. intros H. unfold Pathlib.truediv_str, Pathlib.truediv. by rewrite H. Qed.

Lemma name_truediv_single (p : Path) (c : string) :
  Pathlib.parse c = Pathlib.MkPath false [c] → Pathlib.name (p </> c) = c.
Proof.
  intros H. rewrite truediv_single by done. unfold Pathlib.name. cbn.
  apply last_last.
Qed.

Lemma parent_truediv_single (p : Path) (c : string) :
  Pathlib.parse c = Pathlib.MkPath false [c] → Pathlib.parent (p </> c) = p.
Proof.
  intros H. rewrite truediv_single by done. unfold Pathlib.parent. cbn.
  rewrite removelast_last. by destruct p.
Qed.

Lemma source_snapshot_date_Ok src_id en s local s1 :
  source_snapshot_date src_id en s = Ok local s1 →
  ∃ text elems,
    minidom_parse ("/.snapshots/" +:+ src_id +:+ "/info.xml") en s = Ok elems s1
    ∧ List.find (λ el, String.eqb el.1 "date") elems = Some ("date", Some text)
    ∧ localtime en text = Some local.
Proof.
  unfold source_snapshot_date. munfold.
  destruct (minidom_parse _ en s) as [elems s'|e s'|]; [|done..].
  destruct (find _ elems) as [[tag data]|] eqn:Hfind; cbn; [|done].
  destruct data as [text|]; cbn; [|done].
  destruct (localtime en text) as [l|] eqn:Hloc; cbn; [|done].
  intros [= <- <-]. exists text, elems. split; [done|]. split; [|done].
  destruct (find_some _ _ Hfind) as [_ Htag]. cbn in Htag.
  apply String.eqb_eq in Htag. by subst.
Qed.

Lemma write_file_trace p c en s s' :
  final_state (write_file p c en s) = Some s' →
  trace s' = trace s ++ [WriteFile p c].
Proof.
  unfold write_file. munfold.
  destruct (fault en (WriteFile p c)); cbn; [by intros [= <-]|].
  destruct (walk (fs s) (resolve en p)) as [e|[[x| |v]|]]; cbn; by intros [= <-].
Qed.

Lemma generateXML_writes a en dir num dry s s' :
  Pathlib.name dir = num →
  final_state (generateXML (dir </> "info.xml") num (snap_id a) dry en s) = Some s' →
  traced (descriptor_write a en) s s'.
Proof.
  intros Hname. unfold generateXML. munfold.
  destruct (source_snapshot_date (snap_id a) en s) as [local s1|e s1|] eqn:Hdate;
    cbn; [| |done].
  2:{ intros [= <-]. eapply traced_weaken;
        [|eapply (preserves_run _ _ _ _ _ _ Hdate);
          [apply source_snapshot_date_traced|done]].
      intros c Hc p d ->. by destruct (Hc p d). }
  assert (Hread : traced (descriptor_write a en) s s1).
  { eapply traced_weaken;
      [|eapply (preserves_run _ _ _ _ _ _ Hdate);
        [apply source_snapshot_date_traced|done]].
    intros c Hc p d ->. by destruct (Hc p d). }
  destruct (source_snapshot_date_Ok _ _ _ _ _ Hdate) as (text & elems & Hp & Hf & Hl).
  destruct dry; cbn.
  - intros [= <-]. transitivity s1; [done|]. apply traced_add_log.
  - intros Hw. apply write_file_trace in Hw.
    transitivity s1; [done|].
    eapply traced_single; [|exact Hw].
    intros p d [= <- <-].
    exists dir, num, text, local, elems, s, s1.
    split; [done|]. split; [by apply parent_truediv_single|].
    split; [done|]. split; [done|]. split; [done|]. split; [done|]. reflexivity.
Qed.

Lemma not_write_descriptor a en c : not_write c → descriptor_write a en c.
Proof. intros Hc p d ->. by destruct (Hc p d). Qed.

Lemma main_body_writes fuel a cfg mountpoint subvol_main src dev en s s' :
  final_state (main_body fuel a cfg mountpoint subvol_main src dev en s) = Some s' →
  traced (descriptor_write a en) s s'.
Proof.
  assert (Hnw : ∀ {A} (c : M A) st o st',
            c en st = o → preserves (traced not_write) c →
            final_state o = Some st' → traced (descriptor_write a en) st st').
  { intros A c st o st' Hc Hp Hfin.
    eapply traced_weaken; [apply not_write_descriptor|].
    by eapply preserves_run. }
  unfold main_body. munfold.
  destruct (mount_subvol_id5 mountpoint dev (dry_run a) en s)
    as [[] s1|e s1|] eqn:Hm; cbn; [| |done].
  2:{ intros [= <-]. eapply Hnw; [exact Hm|apply mount_subvol_id5_traced|done]. }
  assert (H1 : traced (descriptor_write a en) s s1).
  { eapply Hnw; [exact Hm|apply mount_subvol_id5_traced|done]. }
  destruct (getNextSnapshotNumber fuel en s1) as [num s2|e s2|] eqn:Ha; cbn;
    [| |done].
  2:{ intros [= <-]. transitivity s1; [done|].
      eapply Hnw; [exact Ha|apply getNextSnapshotNumber_traced|done]. }
  assert (H2 : traced (descriptor_write a en) s1 s2).
  { eapply Hnw; [exact Ha|apply getNextSnapshotNumber_traced|done]. }
  apply getNextSnapshotNumber_allocated, allocated_single in Ha.
  unfold config_get.
  destruct (config_lookup cfg "root" "subvol_snapshots") as [e|snaps] eqn:Hc; cbn.
  { intros [= <-]. by transitivity s1. }
  destruct (createNextSubvolumeNumber mountpoint cfg
              (mountpoint </> snaps </> num) (dry_run a) en s2)
    as [[] s3|e s3|] eqn:Hd; cbn; [| |done].
  2:{ intros [= <-]. transitivity s1; [done|]. transitivity s2; [done|].
      eapply Hnw; [exact Hd|apply createNextSubvolumeNumber_traced|done]. }
  assert (H3 : traced (descriptor_write a en) s2 s3).
  { eapply Hnw; [exact Hd|apply createNextSubvolumeNumber_traced|done]. }
  destruct (generateXML (mountpoint </> snaps </> num </> "info.xml") num
              (snap_id a) (dry_run a) en s3) as [[] s4|e s4|] eqn:Hx; cbn;
    [| |done].
  2:{ intros [= <-]. transitivity s1; [done|]. transitivity s2; [done|].
      transitivity s3; [done|].
      eapply generateXML_writes; [by apply name_truediv_single|by rewrite Hx]. }
  assert (H4 : traced (descriptor_write a en) s3 s4).
  { eapply generateXML_writes; [by apply name_truediv_single|by rewrite Hx]. }
  intros Hr. transitivity s1; [done|]. transitivity s2; [done|].
  transitivity s3; [done|]. transitivity s4; [done|].
  eapply traced_weaken; [apply not_write_descriptor|].
  eapply rollback_traced. exact Hr.
Qed.

Lemma main_tail_writes fuel a cfg mountpoint subvol_main src dev en s s' :
  final_state
    ((confirm;;
      try_except (main_body fuel a cfg mountpoint subvol_main src dev)
                 permission_denied) en s) = Some s' →
  traced (descriptor_write a en) s s'.
Proof.
  munfold.
  destruct (confirm en s) as [[] s1|e s1|] eqn:Hconf; cbn; [| |done].
  2:{ intros [= <-]. eapply traced_weaken; [apply not_write_descriptor|].
      eapply (preserves_run _ _ _ _ _ _ Hconf); [apply confirm_traced|done]. }
  assert (H1 : traced (descriptor_write a en) s s1).
  { eapply traced_weaken; [apply not_write_descriptor|].
    eapply (preserves_run _ _ _ _ _ _ Hconf); [apply confirm_traced|done]. }
  destruct (main_body fuel a _ _ _ _ dev en s1) as [[] s2|e s2|] eqn:Hbody; cbn;
    [| |done].
  - intros [= <-]. transitivity s1; [done|].
    eapply main_body_writes. by rewrite Hbody.
  - assert (H2 : traced (descriptor_write a en) s1 s2).
    { eapply main_body_writes. by rewrite Hbody. }
    unfold permission_denied. destruct (is_PermissionError e); munfold.
    + intros [= <-]. transitivity s1; [done|]. transitivity s2; [done|].
      apply traced_add_log.
    + intros [= <-]. by transitivity s1.
Qed.

Lemma main_writes fuel a en s s' :
  final_state (main fuel a en s) = Some s' →
  traced (descriptor_write a en) s s'.
Proof.
  unfold main, read_config.
  cbv beta iota zeta delta [mbind M_bind bind mret M_ret ret ask try_except].
  unfold config_get.
  destruct (config_lookup _ "root" "mountpoint") as [e|mp]; cbn.
  { intros [= <-]. reflexivity. }
  destruct (config_lookup _ "root" "subvol_main") as [e|sm]; cbn.
  { intros [= <-]. reflexivity. }
  destruct (config_lookup _ "root" "subvol_snapshots") as [e|ss]; cbn.
  { intros [= <-]. reflexivity. }
  destruct (config_lookup _ "root" "dev") as [e|v]; cbn.
  - destruct (is_NoOptionError e); cbn; [|intros [= <-]; reflexivity].
    apply main_tail_writes.
  - apply main_tail_writes.
Qed.



(** ** The directory that is scanned *)

Lemma os_listdir_trace p en s s' :
  final_state (os_listdir p en s) = Some s' → trace s' = trace s ++ [Listdir p].
Proof.
  unfold os_listdir. munfold.
  destruct (fault en (Listdir p)); cbn; [by intros [= <-]|].
  destruct (walk (fs s) (resolve en p)) as [e|[[x| |v]|]]; cbn; by intros [= <-].
Qed.

Lemma minidom_parse_trace p en s s' :
  final_state (minidom_parse p en s) = Some s' → trace s' = trace s ++ [ParseXml p].
Proof.
  unfold minidom_parse. munfold.
  destruct (fault en (ParseXml p)); cbn; [by intros [= <-]|].
  destruct (walk (fs s) (resolve en p)) as [e|[[[elems|b]| |v]|]]; cbn;
    by intros [= <-].
Qed.

(** C6 at its failing input.  Whatever the configuration says, the
    allocator lists the fixed path [/.snapshots] and the source descriptor
    is read from [/.snapshots/<id>/info.xml].  On a system where the
    configured snapshots directory [/btrfsroot/@snapshots] exists (and can
    be listed) but nothing is mounted at [/.snapshots], the run ends with
    [FileNotFoundError] on the listing. *)
Theorem snapshots_path_is_fixed :
  (∀ fuel en s s',
     final_state (getNextSnapshotNumber fuel en s) = Some s' →
     trace s' = trace s ++ [Listdir "/.snapshots"])
  ∧ (∀ src_id en s s',
       final_state (source_snapshot_date src_id en s) = Some s' →
       trace s' = trace s ++ [ParseXml ("/.snapshots/" +:+ src_id +:+ "/info.xml")])
  ∧ config_lookup Scenario.cfg0 "root" "subvol_snapshots" = inr "@snapshots"
  ∧ (∃ s', os_listdir (Pathlib.str (Scenario.mountpoint </> "@snapshots"))
                      Scenario.calm Scenario.st_no_dot_snapshots
           = Ok ["3"; "5"; "7"] s')
  ∧ (∃ s', main 10 Scenario.real_run Scenario.calm Scenario.st_no_dot_snapshots
           = Raise (OSError (Some ENOENT)) s'
           ∧ last (trace s') = Some (Listdir "/.snapshots")).
Proof.
  split; [|split; [|split; [|split]]].
  - intros fuel en s s'. unfold getNextSnapshotNumber. munfold.
    destruct (os_listdir "/.snapshots" en s) as [l s1|e s1|] eqn:Hl; cbn;
      [| |done].
    + assert (Htr : trace s1 = trace s ++ [Listdir "/.snapshots"])
        by (apply (os_listdir_trace _ en); by rewrite Hl).
      destruct (next_number Py.int fuel l) as [[num r]|]; cbn; [|done].
      by intros [= <-].
    + intros [= <-]. apply (os_listdir_trace _ en). by rewrite Hl.
  - intros src_id en s s'. unfold source_snapshot_date. munfold.
    destruct (minidom_parse _ en s) as [elems s1|e s1|] eqn:Hp; cbn; [| |done].
    + assert (Htr : trace s1 = trace s ++
                     [ParseXml ("/.snapshots/" +:+ src_id +:+ "/info.xml")])
        by (apply (minidom_parse_trace _ en); by rewrite Hp).
      destruct (find _ elems) as [[tag [text|]]|]; cbn; try (by intros [= <-]).
      destruct (localtime en text); cbn; by intros [= <-].
    + intros [= <-]. apply (minidom_parse_trace _ en). by rewrite Hp.
  - reflexivity.
  - eexists. vm_compute. reflexivity.
  - eexists. split; [vm_compute; reflexivity|]. reflexivity.
Qed.
